(** * patreon-gate-bot: the submission workflow of [bot.py]

    A shallow embedding of the Telegram bot that gates a private group
    behind one e-mail submission per user.  The handlers of [bot.py] are
    written over a small exception-and-state monad whose state is the
    worksheet plus the log of the calls made to the outside (replies,
    worksheet calls, invite requests).  Python strings are sequences of
    code points below 256; the typographic characters of the reply
    literals stand as their UTF-8 bytes. *)

From stdpp Require Import base list strings gmap pretty.
From Stdlib Require Import ZArith Lia Ascii String.

Local Open Scope Z_scope.

(** ** Python built-ins on strings *)

Module Py.

Definition code (c : ascii) : N := N_of_ascii c.

(** [str.isspace] on one code point below 256: the ASCII blanks, the
    separators 0x1c-0x1f, NEL (0x85) and the no-break space (0xa0). *)
Definition isspace (c : ascii) : bool :=
  let n := code c in
  ((9 <=? n) && (n <=? 13) || (28 <=? n) && (n <=? 32)
   || (n =? 133) || (n =? 160))%N.

Fixpoint lstrip (s : list ascii) : list ascii :=
  match s with
  | c :: s' => if isspace c then lstrip s' else s
  | [] => []
  end.

Definition rstrip (s : list ascii) : list ascii :=
  reverse (lstrip (reverse s)).

(** [s.strip()] *)
Definition strip (s : string) : string :=
  string_of_list_ascii (rstrip (lstrip (list_ascii_of_string s))).

(** Truth value of a string: [bool(s)]. *)
Definition truthy (s : string) : bool :=
  match s with EmptyString => false | _ => true end.

(** Truth value of an optional string (None and the empty string are false). *)
Definition otruthy (o : option string) : bool :=
  match o with Some s => truthy s | None => false end.

(** [x or ""] for an optional string [x]. *)
Definition or_empty (o : option string) : string :=
  match o with
  | Some s => if truthy s then s else ""
  | None => ""
  end.

(** [sep.join(parts)] *)
Fixpoint join (sep : string) (parts : list string) : string :=
  match parts with
  | [] => ""
  | [p] => p
  | p :: rest => p +:+ sep +:+ join sep rest
  end.

(** [str(n)] for an integer: decimal digits, a leading minus sign
    for the negative ones. *)
Definition str (n : Z) : string := pretty n.

(** [l.index(x)]: position of the first occurrence, [None] standing for
    the ValueError. *)
Definition index (x : string) (l : list string) : option nat :=
  fst <$> list_find (λ y, y = x) l.

(** *** [int(s)] in base 10 *)

Definition isdigit (c : ascii) : bool :=
  let n := code c in ((48 <=? n) && (n <=? 57))%N.

Definition digit_value (c : ascii) : Z := Z.of_N (code c) - 48.

(** The digits of a literal, underscores allowed singly between two
    digits; [prev_digit] tells whether the previous character was a digit. *)
Fixpoint int_digits (prev_digit : bool) (acc : Z) (count : nat)
         (s : list ascii) : option (Z * nat) :=
  match s with
  | [] => if prev_digit then Some (acc, count) else None
  | c :: s' =>
      if isdigit c then int_digits true (10 * acc + digit_value c) (S count) s'
      else if (code c =? 95)%N then
        if prev_digit then int_digits false acc count s' else None
      else None
  end.

(** CPython's default bound on the number of digits of a decimal
    literal handed to [int]. *)
Definition int_max_str_digits : nat := 4300.

Definition int_unsigned (s : list ascii) : option Z :=
  match int_digits false 0 0%nat s with
  | Some (v, count) =>
      if (int_max_str_digits <? count)%nat then None else Some v
  | None => None
  end.

(** The blanks [int] skips around a literal: the ASCII blanks, NEL and
    the no-break space, but not the separators 0x1c-0x1f. *)
Definition int_isspace (c : ascii) : bool :=
  let n := code c in
  ((9 <=? n) && (n <=? 13) || (n =? 32) || (n =? 133) || (n =? 160))%N.

Fixpoint int_lstrip (s : list ascii) : list ascii :=
  match s with
  | c :: s' => if int_isspace c then int_lstrip s' else s
  | [] => []
  end.

Definition int_rstrip (s : list ascii) : list ascii :=
  reverse (int_lstrip (reverse s)).

(** [int(s)]; [None] stands for the ValueError. *)
Definition int (s : string) : option Z :=
  match int_rstrip (int_lstrip (list_ascii_of_string s)) with
  | c :: s' =>
      if (code c =? 45)%N then Z.opp <$> int_unsigned s'
      else if (code c =? 43)%N then int_unsigned s'
      else int_unsigned (c :: s')
  | [] => None
  end.

End Py.

(** ** Regular expressions, as far as [EMAIL_RE] needs them *)

Module Re.

Inductive regex : Type :=
| Void
| Eps
| Class (p : ascii -> bool)
| Cat (r1 r2 : regex)
| Alt (r1 r2 : regex)
| Star (r : regex).

Fixpoint nullable (r : regex) : bool :=
  match r with
  | Void => false
  | Eps => true
  | Class _ => false
  | Cat r1 r2 => nullable r1 && nullable r2
  | Alt r1 r2 => nullable r1 || nullable r2
  | Star _ => true
  end.

Fixpoint deriv (c : ascii) (r : regex) : regex :=
  match r with
  | Void => Void
  | Eps => Void
  | Class p => if p c then Eps else Void
  | Cat r1 r2 =>
      if nullable r1 then Alt (Cat (deriv c r1) r2) (deriv c r2)
      else Cat (deriv c r1) r2
  | Alt r1 r2 => Alt (deriv c r1) (deriv c r2)
  | Star r1 => Cat (deriv c r1) (Star r1)
  end.

(** The whole of [s] is a word of [r]. *)
Fixpoint matches (r : regex) (s : list ascii) : bool :=
  match s with
  | [] => nullable r
  | c :: s' => matches (deriv c r) s'
  end.

(** [X+] *)
Definition plus (r : regex) : regex := Cat r (Star r).

(** [X{2,}] *)
Definition at_least_two (r : regex) : regex := Cat r (Cat r (Star r)).

(** A literal character. *)
Definition chr (c : ascii) : regex := Class (λ x, bool_decide (x = c)).

(** The members of a bracketed set: a range [lo-hi] or one character. *)
Inductive item : Type :=
| Range (lo hi : ascii)
| Lit (c : ascii).

Definition in_item (it : item) (c : ascii) : bool :=
  match it with
  | Range lo hi => ((Py.code lo <=? Py.code c) && (Py.code c <=? Py.code hi))%N
  | Lit x => bool_decide (c = x)
  end.

(** The other case of an ASCII letter; no other code point below 256
    has an ASCII letter, a digit or a punctuation sign as a case variant. *)
Definition swapcase (c : ascii) : ascii :=
  let n := Py.code c in
  if ((65 <=? n) && (n <=? 90))%N then ascii_of_N (n + 32)
  else if ((97 <=? n) && (n <=? 122))%N then ascii_of_N (n - 32)
  else c.

(** [[items]], under [re.IGNORECASE] when [ignorecase] is set. *)
Definition in_set (ignorecase : bool) (items : list item) (c : ascii) : bool :=
  existsb (λ it, in_item it c || ignorecase && in_item it (swapcase c)) items.

(** [re.compile("^" r "$").match(s)] without MULTILINE: [r] must span
    the string from its start, and [$] holds at the end of the string
    or just before a newline that is its last character. *)
Definition match_anchored (r : regex) (s : string) : bool :=
  let l := list_ascii_of_string s in
  matches r l
  || match reverse l with
     | c :: l' => (Py.code c =? 10)%N && matches r (reverse l')
     | [] => false
     end.

End Re.

(** ** [datetime] values in UTC *)

Module DateTime.

(** An aware UTC [datetime] is the number of microseconds since
    1970-01-01T00:00:00+00:00; a reading of [time.time()], a float, is
    taken to the same grain, which keeps its integer part. *)
Definition us_per_second : Z := 1000000.
Definition us_per_day : Z := 86400 * us_per_second.

(** [datetime.min] and [datetime.max] (years 1 to 9999). *)
Definition min : Z := -719162 * us_per_day.
Definition max : Z := 2932897 * us_per_day - 1.

Definition in_range (t : Z) : bool := (min <=? t) && (t <=? max).

(** [t + timedelta(minutes=m)]; [None] stands for the OverflowError
    raised when the delta or the sum leaves the range of [datetime]. *)
Definition add_minutes (t m : Z) : option Z :=
  let r := t + m * 60 * us_per_second in
  if in_range r then Some r else None.

(** [int(r)] for a reading [r] of [time.time()]: the whole seconds,
    rounded towards zero. *)
Definition time_int (r : Z) : Z := r ÷ us_per_second.

(** The integer nearest to [n / d], a tie going to the even one
    ([0 <= n], [0 < d]). *)
Definition round_half_even (n d : Z) : Z :=
  let k := n / d in
  let r := n mod d in
  if 2 * r <? d then k
  else if d <? 2 * r then k + 1
  else if Z.even k then k else k + 1.

(** [int(t.timestamp())].  The source divides the microseconds by 10^6
    into a double (the true division of integers, correctly rounded to
    53 significant bits, ties to even) and [int] cuts the double
    towards zero: below one second the result is 0; from there on the
    quotient lies in the binade of exponent [e], is rounded to a
    multiple of [2^(e-52)], and is cut. *)
Definition timestamp_int (t : Z) : Z :=
  let a := Z.abs t in
  let q := a / us_per_second in
  if q =? 0 then 0
  else
    let e := Z.log2 q in
    Z.sgn t
    * (if e <=? 52
       then round_half_even (a * 2 ^ (52 - e)) us_per_second / 2 ^ (52 - e)
       else round_half_even a (us_per_second * 2 ^ (e - 52)) * 2 ^ (e - 52)).

(** Year, month and day of a day number counted from 1970-01-01. *)
Definition civil_from_days (z : Z) : Z * Z * Z :=
  let z := z + 719468 in
  let era := z / 146097 in
  let doe := z - era * 146097 in
  let yoe := (doe - doe / 1460 + doe / 36524 - doe / 146096) / 365 in
  let doy := doe - (365 * yoe + yoe / 4 - yoe / 100) in
  let mp := (5 * doy + 2) / 153 in
  let d := doy - (153 * mp + 2) / 5 + 1 in
  let m := if mp <? 10 then mp + 3 else mp - 9 in
  let y := yoe + era * 400 in
  (if m <=? 2 then y + 1 else y, m, d).

(** ["%0<width>d" % n] for a natural [n]. *)
Definition zero_pad (width : nat) (n : Z) : string :=
  let s := Py.str n in
  string_of_list_ascii (replicate (width - String.length s) "0"%char) +:+ s.

(** [t.isoformat(timespec="seconds")] for an aware UTC [t]. *)
Definition isoformat_seconds (t : Z) : string :=
  let days := t / us_per_day in
  let secs := (t mod us_per_day) / us_per_second in
  let '(y, m, d) := civil_from_days days in
  zero_pad 4 y +:+ "-" +:+ zero_pad 2 m +:+ "-" +:+ zero_pad 2 d +:+ "T"
  +:+ zero_pad 2 (secs / 3600) +:+ ":" +:+ zero_pad 2 (secs / 60 mod 60)
  +:+ ":" +:+ zero_pad 2 (secs mod 60) +:+ "+00:00".

End DateTime.

(** ** The worksheet, as [gspread] shows it *)

Module Sheet.

(** A worksheet is its grid of cells, row by row; a cell that is not
    there and a cell holding the empty string are the same blank cell. *)
Definition blank (cell : string) : bool := bool_decide (cell = "").

Fixpoint drop_blank (cells : list string) : list string :=
  match cells with
  | c :: cells' => if blank c then drop_blank cells' else cells
  | [] => []
  end.

(** The service never reports trailing blank cells. *)
Definition trim (cells : list string) : list string :=
  reverse (drop_blank (reverse cells)).

Definition blank_row (r : list string) : bool := forallb blank r.

Fixpoint drop_blank_rows (rows : list (list string)) : list (list string) :=
  match rows with
  | r :: rows' => if blank_row r then drop_blank_rows rows' else rows
  | [] => []
  end.

(** The rows down to the last one that holds a value. *)
Definition used_rows (ws : list (list string)) : list (list string) :=
  reverse (drop_blank_rows (reverse ws)).

(** [ws.row_values(n)], rows counted from 1 (the source asks for row 1). *)
Definition row_values (n : nat) (ws : list (list string)) : list string :=
  trim (default [] (ws !! (n - 1)%nat)).

(** [ws.col_values(n)], columns counted from 1: one cell per row, down
    to the last row that holds a value in that column. *)
Definition col_values (n : nat) (ws : list (list string)) : list string :=
  trim ((λ r, default "" (r !! (n - 1)%nat)) <$> ws).

(** [ws.append_row(values)]: the service writes the new row below the
    table it finds in the sheet.  The rows that hold values are taken
    to form one table that starts in the first column, so that the new
    row comes after the last row that holds a value. *)
Definition append_row (values : list string) (ws : list (list string))
  : list (list string) :=
  used_rows ws ++ [values].

End Sheet.

(** ** The outside of the program *)

(** A raised exception: [type(e).__name__] and [str(e)]. *)
Record Exception : Type := mkException { exc_type : string; exc_msg : string }.

(** The keyword arguments of [bot.create_chat_invite_link]. *)
Record InviteRequest : Type := mkInviteRequest {
  chat_id : Z;
  member_limit : Z;
  expire_date : Z;
  creates_join_request : bool;
  name : string;
}.

Module Tg.
(** [telegram.User], the fields the bot reads. *)
Record User : Type := mkUser {
  id : Z;
  first_name : string;
  last_name : option string;
  username : option string;
}.

(** [telegram.Update], the fields the bot reads. *)
Record Update : Type := mkUpdate {
  effective_chat_type : string;
  message_text : option string;
  effective_user : User;
}.
End Tg.

(** The calls a handler makes to the outside, in the order it makes them. *)
Inductive Event : Type :=
| EvReplyText (text : string)
| EvOpenByKey (credentials_file key : string)
| EvRowValues (row : nat)
| EvColValues (col : nat)
| EvAppendRow (values : list string) (value_input_option : option string)
| EvCreateChatInviteLink (req : InviteRequest).

(** The worksheet behind [SHEET_ID] and the calls made so far.  The
    worksheet service is taken to answer every call. *)
Record World : Type := mkWorld {
  sheet : list (list string);
  log : list Event;
}.

(** What the outside answers during one run of a handler. *)
Record Env : Type := mkEnv {
  (** [datetime.now(timezone.utc)] when the expiry is computed *)
  now_expire : Z;
  (** [time.time()] when the invite is named *)
  time_time : Z;
  (** [datetime.now(timezone.utc)] when the row is built *)
  now_append : Z;
  (** the answer of the Bot API to an invite request: the exception it
      raises or the [invite_link] of the link it returns *)
  bot_api : InviteRequest -> Exception + string;
  (** the text CPython puts in the ValueError of [int(s)] *)
  int_error_text : string -> string;
  (** the text it puts in the OverflowError of [datetime] arithmetic *)
  overflow_text : string;
}.

(** ** Exceptions over the world *)

Definition M (A : Type) : Type := World -> (Exception + A) * World.

Definition ret {A} (a : A) : M A := λ w, (inr a, w).

Definition raise {A} (e : Exception) : M A := λ w, (inl e, w).

Definition bind {A B} (c : M A) (k : A -> M B) : M B :=
  λ w, match c w with
       | (inr a, w') => k a w'
       | (inl e, w') => (inl e, w')
       end.

(** [try: c  except Exception as e: ...], the outcome handed to the rest. *)
Definition try {A} (c : M A) : M (Exception + A) :=
  λ w, match c w with (r, w') => (inr r, w') end.

Declare Scope py_scope.
Delimit Scope py_scope with py.
Notation "x <- c ;; k" := (bind c (λ x, k))
  (at level 20, c at level 99, k at level 200, only parsing) : py_scope.
Notation "c ;; k" := (bind c (λ _, k))
  (at level 100, k at level 200, only parsing, right associativity) : py_scope.
Local Open Scope py_scope.

Definition emit (e : Event) : M unit :=
  λ w, (inr tt, mkWorld (sheet w) (log w ++ [e])).

(** [await update.message.reply_text(text)] *)
Definition reply_text (text : string) : M unit := emit (EvReplyText text).

Definition ws_row_values (n : nat) : M (list string) :=
  emit (EvRowValues n) ;; λ w, (inr (Sheet.row_values n (sheet w)), w).

Definition ws_col_values (n : nat) : M (list string) :=
  emit (EvColValues n) ;; λ w, (inr (Sheet.col_values n (sheet w)), w).

Definition ws_append_row (values : list string) (value_input_option : option string)
  : M unit :=
  λ w, (inr tt, mkWorld (Sheet.append_row values (sheet w))
                        (log w ++ [EvAppendRow values value_input_option])).

(** [int(s)] as a step that may raise. *)
Definition py_int (env : Env) (s : string) : M Z :=
  match Py.int s with
  | Some n => ret n
  | None => raise (mkException "ValueError" (int_error_text env s))
  end.

(** [await context.bot.create_chat_invite_link(...)], then [.invite_link]. *)
Definition create_chat_invite_link (env : Env) (req : InviteRequest) : M string :=
  emit (EvCreateChatInviteLink req) ;;
  match bot_api env req with
  | inr link => ret link
  | inl e => raise e
  end.

(** ** [bot.py] *)

(** The module globals read from the environment. *)
Record Config : Type := mkConfig {
  BOT_TOKEN : string;
  GROUP_CHAT_ID : string;
  SHEET_ID : string;
  GOOGLE_SERVICE_ACCOUNT_JSON : string;
  INVITE_EXPIRE_MINUTES : Z;
}.

(** [os.getenv(name, dflt)] *)
Definition getenv (environ : gmap string string) (name dflt : string) : string :=
  default dflt (environ !! name).

(** The assignments at the top of the module; the ValueError of [int]
    carries the text [int_text] gives it. *)
Definition load_config (int_text : string -> string) (environ : gmap string string)
  : Exception + Config :=
  let bot_token := Py.strip (getenv environ "BOT_TOKEN" "") in
  let group_chat_id := Py.strip (getenv environ "GROUP_CHAT_ID" "") in
  let sheet_id := Py.strip (getenv environ "SHEET_ID" "") in
  let json := Py.strip (getenv environ "GOOGLE_SERVICE_ACCOUNT_JSON" "service-account.json") in
  let minutes := getenv environ "INVITE_EXPIRE_MINUTES" "10" in
  match Py.int minutes with
  | Some m => inr (mkConfig bot_token group_chat_id sheet_id json m)
  | None => inl (mkException "ValueError" (int_text minutes))
  end.

(** The value a conversation handler returns: the state to wait in, or
    [ConversationHandler.END]. *)
Inductive Next : Type := ASK_EMAIL | END.

(** [re.compile(r"^[A-Z0-9._%+-]+@[A-Z0-9.-]+\.[A-Z]{2,}$", re.IGNORECASE)],
    the anchors being those of [Re.match_anchored]. *)
Definition EMAIL_RE : Re.regex :=
  Re.Cat (Re.plus (Re.Class (Re.in_set true
            [Re.Range "A" "Z"; Re.Range "0" "9";
             Re.Lit "."; Re.Lit "_"; Re.Lit "%"; Re.Lit "+"; Re.Lit "-"])))
    (Re.Cat (Re.chr "@")
       (Re.Cat (Re.plus (Re.Class (Re.in_set true
                  [Re.Range "A" "Z"; Re.Range "0" "9"; Re.Lit "."; Re.Lit "-"])))
          (Re.Cat (Re.chr ".")
             (Re.at_least_two (Re.Class (Re.in_set true [Re.Range "A" "Z"])))))).

(** [EMAIL_RE.match(s)], as a truth value. *)
Definition EMAIL_RE_match (s : string) : bool := Re.match_anchored EMAIL_RE s.

Definition HEADER : list string :=
  [ "timestamp_utc";
    "telegram_user_id";
    "telegram_username";
    "telegram_full_name";
    "patreon_email";
    "invite_link_created" ].

Definition must_env (name value : string) : Exception + unit :=
  if negb (Py.truthy value)
  then inl (mkException "RuntimeError" ("Missing env var: " +:+ name))
  else inr tt.

(** The worksheet handle the source returns is the worksheet of the world. *)
Definition get_ws (cfg : Config) : M unit :=
  emit (EvOpenByKey (GOOGLE_SERVICE_ACCOUNT_JSON cfg) (SHEET_ID cfg)) ;;
  first_row <- ws_row_values 1 ;;
  match first_row with
  | [] => ws_append_row HEADER None
  | _ => ret tt
  end.

Definition user_already_submitted (telegram_user_id : Z) : M bool :=
  headers <- ws_row_values 1 ;;
  let col_idx :=
    match Py.index "telegram_user_id" headers with
    | Some i => (i + 1)%nat
    | None => 2%nat
    end in
  col <- ws_col_values col_idx ;;
  ret (bool_decide (Py.str telegram_user_id ∈ (list_to_set (drop 1 col) : gset string))).

Definition append_submission (env : Env) (user : Tg.User) (email invite_link : string)
  : M unit :=
  let full_name :=
    Py.or_empty (Some (Py.join " "
      (filter (λ x, Py.otruthy x) [Some (Tg.first_name user); Tg.last_name user]
       ≫= option_list))) in
  let row :=
    [ DateTime.isoformat_seconds (now_append env);
      Py.str (Tg.id user);
      Py.or_empty (Tg.username user);
      full_name;
      email;
      invite_link ] in
  ws_append_row row (Some "RAW").

Definition start (update : Tg.Update) : M Next :=
  if negb (String.eqb (Tg.effective_chat_type update) "private") then
    reply_text "Please DM me to get access." ;;
    ret END
  else
    reply_text "To get access, reply with the email address you use for Patreon.

Note: you can only submit once." ;;
    ret ASK_EMAIL.

Definition invalid_email_text : string :=
  "That doesn’t look like a valid email. Please try again (example: name@gmail.com).".

Definition already_submitted_text : string :=
  "You’ve already submitted your details, so I can’t accept another entry.
If you need help, message the admin.".

Definition invite_failed_text (e : Exception) : string :=
  "I couldn't create an invite link. Common causes:
• bot is not an admin in the group
• bot lacks permission to manage invite links
• GROUP_CHAT_ID is wrong (supergroups often start with -100...)

Error: " +:+ exc_type e +:+ ": " +:+ exc_msg e.

Definition invite_text (invite_link : string) : string :=
  "Thanks — here’s your one-time join link (single use, expires soon):

" +:+ invite_link.

Definition handle_email (cfg : Config) (env : Env) (update : Tg.Update) : M Next :=
  if negb (String.eqb (Tg.effective_chat_type update) "private") then ret END
  else
    let email := Py.strip (Py.or_empty (Tg.message_text update)) in
    if negb (EMAIL_RE_match email) then
      reply_text invalid_email_text ;;
      ret ASK_EMAIL
    else
      get_ws cfg ;;
      let tg_user := Tg.effective_user update in
      dup <- user_already_submitted (Tg.id tg_user) ;;
      if dup : bool then
        reply_text already_submitted_text ;;
        ret END
      else
        expire_dt <-
          match DateTime.add_minutes (now_expire env) (INVITE_EXPIRE_MINUTES cfg) with
          | Some t => ret t
          | None => raise (mkException "OverflowError" (overflow_text env))
          end ;;
        let expire_ts := DateTime.timestamp_int expire_dt in
        r <- try (
          cid <- py_int env (GROUP_CHAT_ID cfg) ;;
          create_chat_invite_link env
            {| chat_id := cid;
               member_limit := 1;
               expire_date := expire_ts;
               creates_join_request := false;
               name := "patreon_gate_" +:+ Py.str (Tg.id tg_user) +:+ "_"
                       +:+ Py.str (DateTime.time_int (time_time env)) |}) ;;
        match r with
        | inl e =>
            reply_text (invite_failed_text e) ;;
            ret END
        | inr invite_link =>
            append_submission env tg_user email invite_link ;;
            reply_text (invite_text invite_link) ;;
            ret END
        end.

Definition cancel (update : Tg.Update) : M Next :=
  reply_text "Cancelled. You can restart with /start." ;;
  ret END.

(** What [main] leaves running: the polling application with its token
    and the conversation it serves. *)
Record Application : Type := mkApplication {
  token : string;
  entry_command : string;
  fallback_command : string;
}.

(** [main()]: the exception it raises, or the application it polls with. *)
Definition main (cfg : Config) : Exception + Application :=
  match must_env "BOT_TOKEN" (BOT_TOKEN cfg) with
  | inl e => inl e
  | inr _ =>
      match must_env "GROUP_CHAT_ID" (GROUP_CHAT_ID cfg) with
      | inl e => inl e
      | inr _ =>
          match must_env "SHEET_ID" (SHEET_ID cfg) with
          | inl e => inl e
          | inr _ => inr (mkApplication (BOT_TOKEN cfg) "start" "cancel")
          end
      end
  end.

(** The process: the module is loaded, then [main] runs. *)
Definition run_module (int_text : string -> string) (environ : gmap string string)
  : Exception + Application :=
  match load_config int_text environ with
  | inl e => inl e
  | inr cfg => main cfg
  end.

(** ** Vocabulary of the statements *)

(** The worksheet [get_ws] leaves behind. *)
Definition opened (ws : list (list string)) : list (list string) :=
  match Sheet.row_values 1 ws with
  | [] => Sheet.append_row HEADER ws
  | _ => ws
  end.

(** The calls [get_ws] makes on a worksheet. *)
Definition get_ws_events (cfg : Config) (ws : list (list string)) : list Event :=
  [EvOpenByKey (GOOGLE_SERVICE_ACCOUNT_JSON cfg) (SHEET_ID cfg); EvRowValues 1]
  ++ match Sheet.row_values 1 ws with
     | [] => [EvAppendRow HEADER None]
     | _ => []
     end.

(** The column the duplicate check reads, counted from 1. *)
Definition id_column (ws : list (list string)) : nat :=
  match Py.index "telegram_user_id" (Sheet.row_values 1 ws) with
  | Some i => (i + 1)%nat
  | None => 2%nat
  end.

(** The user id stands in that column, below the first row. *)
Definition recorded (ws : list (list string)) (uid : Z) : Prop :=
  ∃ r : nat, (1 ≤ r)%nat ∧ Sheet.col_values (id_column ws) ws !! r = Some (Py.str uid).

(** The request [handle_email] sends for a user, an expiry and a chat. *)
Definition invite_request (env : Env) (uid expire_dt cid : Z) : InviteRequest :=
  {| chat_id := cid;
     member_limit := 1;
     expire_date := DateTime.timestamp_int expire_dt;
     creates_join_request := false;
     name := "patreon_gate_" +:+ Py.str uid +:+ "_"
             +:+ Py.str (DateTime.time_int (time_time env)) |}.

(** What has become of the invite once the guarded block is left: the
    exception caught or the link issued. *)
Definition invite_outcome (cfg : Config) (env : Env) (uid expire_dt : Z)
  : Exception + string :=
  match Py.int (GROUP_CHAT_ID cfg) with
  | None => inl (mkException "ValueError" (int_error_text env (GROUP_CHAT_ID cfg)))
  | Some cid => bot_api env (invite_request env uid expire_dt cid)
  end.

(** *** The e-mail pattern in words *)

Definition is_letter (c : ascii) : bool :=
  let n := Py.code c in ((65 <=? n) && (n <=? 90) || (97 <=? n) && (n <=? 122))%N.

Definition is_alnum (c : ascii) : bool := is_letter c || Py.isdigit c.

Definition is_local_char (c : ascii) : bool :=
  is_alnum c || bool_decide (c ∈ ["."; "_"; "%"; "+"; "-"]%char).

Definition is_domain_char (c : ascii) : bool :=
  is_alnum c || bool_decide (c ∈ ["."; "-"]%char).

(** A local part of letters, digits and [._%+-], an [@], a domain of
    letters, digits, dots and hyphens, a dot, and a last label of two
    letters or more. *)
Definition email_shape (s : list ascii) : Prop :=
  ∃ l d t : list ascii,
    s = l ++ "@"%char :: d ++ "."%char :: t
    ∧ l ≠ [] ∧ Forall (λ c, is_local_char c = true) l
    ∧ d ≠ [] ∧ Forall (λ c, is_domain_char c = true) d
    ∧ (2 ≤ List.length t)%nat ∧ Forall (λ c, is_letter c = true) t.

(** The words of a regular expression. *)
Inductive star (L : list ascii -> Prop) : list ascii -> Prop :=
| star_nil : star L []
| star_app s1 s2 : s1 ≠ [] -> L s1 -> star L s2 -> star L (s1 ++ s2).

Fixpoint lang (r : Re.regex) (s : list ascii) : Prop :=
  match r with
  | Re.Void => False
  | Re.Eps => s = []
  | Re.Class p => ∃ c, s = [c] ∧ p c = true
  | Re.Cat r1 r2 => ∃ s1 s2, s = s1 ++ s2 ∧ lang r1 s1 ∧ lang r2 s2
  | Re.Alt r1 r2 => lang r1 s ∨ lang r2 s
  | Re.Star r1 => star (lang r1) s
  end.

(** The e-mail a message carries once stripped. *)
Definition email_of (update : Tg.Update) : string :=
  Py.strip (Py.or_empty (Tg.message_text update)).

(** The full name in the words of the data model: first and last name
    joined by a space, a part that is absent or empty left out. *)
Definition full_name_of (user : Tg.User) : string :=
  match Py.truthy (Tg.first_name user), Py.otruthy (Tg.last_name user) with
  | true, true => Tg.first_name user +:+ " " +:+ default "" (Tg.last_name user)
  | true, false => Tg.first_name user
  | false, true => default "" (Tg.last_name user)
  | false, false => ""
  end.

(** The row of one submission. *)
Definition submission_row (env : Env) (user : Tg.User) (email invite_link : string)
  : list string :=
  [ DateTime.isoformat_seconds (now_append env);
    Py.str (Tg.id user);
    default "" (Tg.username user);
    full_name_of user;
    email;
    invite_link ].

(** ** Sample data for the concrete runs *)

Definition sample_cfg : Config :=
  mkConfig "123456:token" "-1001234567890" "sheet-key" "service-account.json" 10.

Definition sample_int_error_text (s : string) : string :=
  "invalid literal for int() with base 10: '" +:+ s +:+ "'".

Definition api_ok : InviteRequest -> Exception + string :=
  λ _, inr "https://t.me/+AbCdEf".

Definition api_forbidden : InviteRequest -> Exception + string :=
  λ _, inl (mkException "Forbidden" "not enough rights to manage chat invite link").

Definition sample_env (api : InviteRequest -> Exception + string) : Env :=
  mkEnv 1700000000123456 1700000000654321 1700000001999999 api sample_int_error_text
        "date value out of range".

Definition sample_user : Tg.User := Tg.mkUser 42 "Ann" (Some "Lee") None.

Definition other_user : Tg.User := Tg.mkUser 7 "Bob" None (Some "bob").

Definition sample_update (chat_type text : string) (user : Tg.User) : Tg.Update :=
  Tg.mkUpdate chat_type (Some text) user.

(** A worksheet holding the header and the submission of user 42. *)
Definition sample_sheet : list (list string) :=
  [ HEADER;
    ["2023-11-14T22:13:20+00:00"; "42"; ""; "Ann Lee"; "ann@example.com";
     "https://t.me/+first"] ].

(** A worksheet whose first row has been blanked, the submission of
    user 42 still standing in its second row. *)
Definition headless_sheet : list (list string) :=
  [ [];
    ["2023-11-14T22:13:20+00:00"; "42"; ""; "Ann Lee"; "ann@example.com";
     "https://t.me/+first"] ].

(** The call is a reply to the user. *)
Definition is_reply (ev : Event) : Prop :=
  match ev with EvReplyText _ => True | _ => False end.

(** [n] calls of [get_ws] in a row. *)
Fixpoint get_ws_times (cfg : Config) (n : nat) : M unit :=
  match n with
  | O => ret tt
  | S n' => get_ws cfg ;; get_ws_times cfg n'
  end.

(** The cell of a row in a column counted from 1, blank where the row ends. *)
Definition cell (c : nat) (r : list string) : string := default "" (r !! (c - 1)%nat).

(** * Properties *)

(** ** The built-ins on concrete values *)

Example strip_example : Py.strip "  name@example.com
" = "name@example.com".
Proof. reflexivity. Qed.

Example int_examples :
  Py.int " -1001234_567 " = Some (-1001234567) ∧ Py.int "007" = Some 7
  ∧ Py.int "- 5" = None ∧ Py.int "1__0" = None ∧ Py.int "_1" = None
  ∧ Py.int "10_" = None ∧ Py.int "+" = None ∧ Py.int "" = None.
Proof. repeat split; reflexivity. Qed.

Example isoformat_examples :
  DateTime.isoformat_seconds 0 = "1970-01-01T00:00:00+00:00"
  ∧ DateTime.isoformat_seconds 1700000000123456 = "2023-11-14T22:13:20+00:00"
  ∧ DateTime.isoformat_seconds (-1) = "1969-12-31T23:59:59+00:00"
  ∧ DateTime.isoformat_seconds (951782400000000 - 1) = "2000-02-28T23:59:59+00:00"
  ∧ DateTime.isoformat_seconds 951782400000000 = "2000-02-29T00:00:00+00:00"
  ∧ DateTime.isoformat_seconds DateTime.min = "0001-01-01T00:00:00+00:00"
  ∧ DateTime.isoformat_seconds DateTime.max = "9999-12-31T23:59:59+00:00".
Proof. vm_compute. repeat split; reflexivity. Qed.

(** The double behind [timestamp()]: exact below 2^34 seconds, a
    fraction of .999999 rounding up to the next second from there. *)
Example timestamp_int_examples :
  DateTime.timestamp_int 1700000000999999 = 1700000000
  ∧ DateTime.timestamp_int (-1) = 0
  ∧ DateTime.timestamp_int (-1000001) = -1
  ∧ DateTime.timestamp_int (2 ^ 34 * 1000000 - 1) = 2 ^ 34 - 1
  ∧ DateTime.timestamp_int (1700000000999999 + 257997820 * 60 * 1000000) = 17179869201
  ∧ DateTime.timestamp_int DateTime.max = 253402300800
  ∧ DateTime.time_int 1700000000999999 = 1700000000.
Proof. vm_compute. repeat split; reflexivity. Qed.

(** [int] skips NEL and the no-break space but not the separators
    0x1c-0x1f, which [str.strip] removes. *)
Example int_blank_examples :
  Py.int (String "028" "5") = None
  ∧ Py.int (String "133" (String "160" "5")) = Some 5
  ∧ Py.strip (String "028" "5") = "5".
Proof. repeat split; reflexivity. Qed.

Example worksheet_examples :
  Sheet.col_values 2 [["a"; "b"]; ["c"]; ["d"; "e"; ""]; []] = ["b"; ""; "e"]
  ∧ Sheet.row_values 1 [[""; ""]; ["x"]] = []
  ∧ Sheet.append_row ["h"] [[]; ["x"]; [""]] = [[]; ["x"]; ["h"]].
Proof. repeat split; reflexivity. Qed.

Example EMAIL_RE_examples :
  EMAIL_RE_match "name@example.com" = true
  ∧ EMAIL_RE_match "A.b-c+d%e_f@x-y.z.COM" = true
  ∧ EMAIL_RE_match "a@b.c" = false
  ∧ EMAIL_RE_match "a@b.c0m" = false
  ∧ EMAIL_RE_match "not-an-email" = false
  ∧ EMAIL_RE_match "@b.com" = false.
Proof. vm_compute. repeat split; reflexivity. Qed.

(** ** Running the steps *)

Lemma bind_run {A B} (c : M A) (k : A -> M B) (w : World) :
  bind c k w = match c w with
               | (inr a, w') => k a w'
               | (inl e, w') => (inl e, w')
               end.
Proof. reflexivity. Qed.

Lemma get_ws_run cfg w :
  get_ws cfg w
  = (inr tt, mkWorld (opened (sheet w)) (log w ++ get_ws_events cfg (sheet w))).
Proof.
  unfold get_ws, opened, get_ws_events, ws_row_values, ws_append_row, emit, bind, ret.
  simpl. destruct (Sheet.row_values 1 (sheet w)); simpl;
    rewrite <- ?app_assoc; reflexivity.
Qed.

Lemma user_already_submitted_run uid w :
  user_already_submitted uid w
  = (inr (bool_decide (Py.str uid ∈ (list_to_set
              (drop 1 (Sheet.col_values (id_column (sheet w)) (sheet w))) : gset string))),
     mkWorld (sheet w) (log w ++ [EvRowValues 1; EvColValues (id_column (sheet w))])).
Proof.
  unfold user_already_submitted, id_column, ws_row_values, ws_col_values, emit, bind, ret.
  simpl. rewrite <- ?app_assoc. reflexivity.
Qed.

(** Membership in the set built from the column below its first cell. *)
Lemma recorded_iff ws uid :
  bool_decide (Py.str uid ∈ (list_to_set
      (drop 1 (Sheet.col_values (id_column ws) ws)) : gset string)) = true
  ↔ recorded ws uid.
Proof.
  rewrite bool_decide_eq_true, elem_of_list_to_set, list_elem_of_lookup.
  unfold recorded. split.
  - intros [i Hi]. rewrite lookup_drop in Hi. exists (1 + i)%nat. split; [lia | exact Hi].
  - intros [r [Hr Hl]]. exists (r - 1)%nat. rewrite lookup_drop.
    replace (1 + (r - 1))%nat with r by lia. exact Hl.
Qed.

Lemma or_empty_default (o : option string) : Py.or_empty o = default "" o.
Proof. destruct o as [[|c s]|]; reflexivity. Qed.

(** The comprehension, the join and the [or] of the source give the
    full name of the data model. *)
Lemma full_name_code (user : Tg.User) :
  Py.or_empty (Some (Py.join " "
    (filter (λ x, Py.otruthy x) [Some (Tg.first_name user); Tg.last_name user]
     ≫= option_list)))
  = full_name_of user.
Proof.
  unfold full_name_of.
  destruct user as [uid [|c f] [[|c' l]|] un]; reflexivity.
Qed.

Lemma append_submission_run env user email link w :
  append_submission env user email link w
  = (inr tt,
     mkWorld (Sheet.append_row (submission_row env user email link) (sheet w))
             (log w ++ [EvAppendRow (submission_row env user email link) (Some "RAW")])).
Proof.
  unfold append_submission, ws_append_row, submission_row.
  rewrite full_name_code, or_empty_default. reflexivity.
Qed.

(** The guarded block of [handle_email]: the literal of the chat id is
    read first, then the request goes out. *)
Lemma try_invite_run env s (req : Z -> InviteRequest) w :
  try (cid <- py_int env s ;; create_chat_invite_link env (req cid)) w
  = match Py.int s with
    | None => (inr (inl (mkException "ValueError" (int_error_text env s))), w)
    | Some cid =>
        (inr (bot_api env (req cid)),
         mkWorld (sheet w) (log w ++ [EvCreateChatInviteLink (req cid)]))
    end.
Proof.
  unfold try, bind, py_int, create_chat_invite_link, emit, bind, ret, raise.
  destruct (Py.int s) as [cid|]; [|reflexivity].
  destruct (bot_api env (req cid)); reflexivity.
Qed.

(** *** The paths of [handle_email] *)

Section HandleEmail.

Variables (cfg : Config) (env : Env) (update : Tg.Update) (w : World).

Let uid := Tg.id (Tg.effective_user update).
Let ws1 := opened (sheet w).
Let log1 :=
  log w ++ get_ws_events cfg (sheet w)
  ++ [EvRowValues 1; EvColValues (id_column (opened (sheet w)))].

Lemma handle_email_not_private :
  Tg.effective_chat_type update ≠ "private" ->
  handle_email cfg env update w = (inr END, w).
Proof.
  intros H. unfold handle_email.
  destruct (String.eqb_spec (Tg.effective_chat_type update) "private") as [E|E];
    [contradiction | reflexivity].
Qed.

Hypothesis Hprivate : Tg.effective_chat_type update = "private".

Lemma handle_email_invalid :
  EMAIL_RE_match (email_of update) = false ->
  handle_email cfg env update w
  = (inr ASK_EMAIL, mkWorld (sheet w) (log w ++ [EvReplyText invalid_email_text])).
Proof.
  intros H. unfold handle_email. rewrite Hprivate. cbn [String.eqb Ascii.eqb Bool.eqb negb].
  fold (email_of update). rewrite H. reflexivity.
Qed.

Hypothesis Hvalid : EMAIL_RE_match (email_of update) = true.

(** Up to the duplicate check every valid private submission runs alike. *)
Lemma handle_email_valid :
  handle_email cfg env update w
  = (if bool_decide (Py.str uid ∈ (list_to_set
           (drop 1 (Sheet.col_values (id_column ws1) ws1)) : gset string))
     then (reply_text already_submitted_text ;; ret END)
     else
       (expire_dt <-
          match DateTime.add_minutes (now_expire env) (INVITE_EXPIRE_MINUTES cfg) with
          | Some t => ret t
          | None => raise (mkException "OverflowError" (overflow_text env))
          end ;;
        r <- try (cid <- py_int env (GROUP_CHAT_ID cfg) ;;
                  create_chat_invite_link env (invite_request env uid expire_dt cid)) ;;
        match r with
        | inl e => reply_text (invite_failed_text e) ;; ret END
        | inr invite_link =>
            append_submission env (Tg.effective_user update) (email_of update) invite_link ;;
            reply_text (invite_text invite_link) ;;
            ret END
        end)) (mkWorld ws1 log1).
Proof.
  unfold handle_email. rewrite Hprivate. cbn [String.eqb Ascii.eqb Bool.eqb negb].
  fold (email_of update). rewrite Hvalid. cbn [negb].
  rewrite bind_run, get_ws_run, bind_run, user_already_submitted_run.
  cbn [sheet log]. rewrite <- app_assoc. reflexivity.
Qed.

Lemma handle_email_duplicate :
  recorded ws1 uid ->
  handle_email cfg env update w
  = (inr END, mkWorld ws1 (log1 ++ [EvReplyText already_submitted_text])).
Proof.
  intros H. apply recorded_iff in H. rewrite handle_email_valid, H. reflexivity.
Qed.

Hypothesis Hfresh : ¬ recorded ws1 uid.

Lemma handle_email_overflow :
  DateTime.add_minutes (now_expire env) (INVITE_EXPIRE_MINUTES cfg) = None ->
  handle_email cfg env update w
  = (inl (mkException "OverflowError" (overflow_text env)), mkWorld ws1 log1).
Proof.
  intros H. rewrite handle_email_valid.
  destruct (bool_decide _) eqn:E; [apply recorded_iff in E; contradiction|].
  rewrite bind_run, H. reflexivity.
Qed.

Variable expire_dt : Z.
Hypothesis Hexpire :
  DateTime.add_minutes (now_expire env) (INVITE_EXPIRE_MINUTES cfg) = Some expire_dt.

Lemma handle_email_bad_chat_id :
  Py.int (GROUP_CHAT_ID cfg) = None ->
  handle_email cfg env update w
  = (inr END,
     mkWorld ws1 (log1 ++ [EvReplyText (invite_failed_text
         (mkException "ValueError" (int_error_text env (GROUP_CHAT_ID cfg))))])).
Proof.
  intros H. rewrite handle_email_valid.
  destruct (bool_decide _) eqn:E; [apply recorded_iff in E; contradiction|].
  rewrite bind_run, Hexpire. unfold ret at 1. cbn iota.
  rewrite bind_run, (try_invite_run env _ (invite_request env uid expire_dt)), H.
  reflexivity.
Qed.

Variable cid : Z.
Hypothesis Hcid : Py.int (GROUP_CHAT_ID cfg) = Some cid.

Lemma handle_email_api_error e :
  bot_api env (invite_request env uid expire_dt cid) = inl e ->
  handle_email cfg env update w
  = (inr END,
     mkWorld ws1 (log1 ++ [EvCreateChatInviteLink (invite_request env uid expire_dt cid);
                           EvReplyText (invite_failed_text e)])).
Proof.
  intros H. rewrite handle_email_valid.
  destruct (bool_decide _) eqn:E; [apply recorded_iff in E; contradiction|].
  rewrite bind_run, Hexpire. unfold ret at 1. cbn iota.
  rewrite bind_run, (try_invite_run env _ (invite_request env uid expire_dt)), Hcid, H.
  cbn. rewrite <- !app_assoc. reflexivity.
Qed.

Lemma handle_email_success link :
  bot_api env (invite_request env uid expire_dt cid) = inr link ->
  let row := submission_row env (Tg.effective_user update) (email_of update) link in
  handle_email cfg env update w
  = (inr END,
     mkWorld (Sheet.append_row row ws1)
             (log1 ++ [EvCreateChatInviteLink (invite_request env uid expire_dt cid);
                       EvAppendRow row (Some "RAW");
                       EvReplyText (invite_text link)])).
Proof.
  intros H row. rewrite handle_email_valid.
  destruct (bool_decide _) eqn:E; [apply recorded_iff in E; contradiction|].
  rewrite bind_run, Hexpire. unfold ret at 1. cbn iota.
  rewrite bind_run, (try_invite_run env _ (invite_request env uid expire_dt)), Hcid, H.
  rewrite bind_run, append_submission_run.
  cbn. rewrite <- !app_assoc. reflexivity.
Qed.

End HandleEmail.

(** ** The matcher and the words of a regular expression *)

Lemma nullable_spec r : Re.nullable r = true ↔ lang r [].
Proof.
  induction r as [| |p|r1 IH1 r2 IH2|r1 IH1 r2 IH2|r1 IH1]; simpl.
  - split; [discriminate | tauto].
  - tauto.
  - split; [discriminate | intros (c & H & _); discriminate].
  - rewrite andb_true_iff, IH1, IH2. split.
    + intros [H1 H2]. exists [], []. auto.
    + intros (s1 & s2 & H & H1 & H2).
      destruct s1; [|discriminate]. destruct s2; [|discriminate]. auto.
  - rewrite orb_true_iff, IH1, IH2. tauto.
  - split; [intros _; constructor | reflexivity].
Qed.

Lemma star_cons_inv (L : list ascii -> Prop) c s :
  star L (c :: s) -> ∃ s1 s2, s = s1 ++ s2 ∧ L (c :: s1) ∧ star L s2.
Proof.
  intros H. remember (c :: s) as cs eqn:E. destruct H as [|s1 s2 Hne H1 H2].
  - discriminate.
  - destruct s1 as [|c' s1]; [contradiction|]. simpl in E.
    injection E as Ec Es. subst c' s. eauto.
Qed.

Lemma deriv_spec r c s : lang (Re.deriv c r) s ↔ lang r (c :: s).
Proof.
  revert s. induction r as [| |p|r1 IH1 r2 IH2|r1 IH1 r2 IH2|r1 IH1]; intros s; simpl.
  - tauto.
  - split; [tauto | discriminate].
  - destruct (p c) eqn:E; simpl.
    + split.
      * intros ->. eauto.
      * intros (c' & H & _). injection H as _ ->. reflexivity.
    + split; [tauto|]. intros (c' & H & Hp). injection H as -> _. congruence.
  - assert (Hcat : (∃ s1 s2, s = s1 ++ s2 ∧ lang (Re.deriv c r1) s1 ∧ lang r2 s2)
                   ↔ ∃ s1 s2, c :: s = (c :: s1) ++ s2 ∧ lang r1 (c :: s1) ∧ lang r2 s2).
    { split; intros (s1 & s2 & H & H1 & H2); exists s1, s2.
      - subst s. rewrite <- IH1. auto.
      - simpl in H. injection H as ->. rewrite IH1. auto. }
    destruct (Re.nullable r1) eqn:N; simpl.
    + rewrite Hcat, IH2. split.
      * intros [(s1 & s2 & H & H1 & H2) | H2].
        -- exists (c :: s1), s2. auto.
        -- exists [], (c :: s). apply nullable_spec in N. auto.
      * intros (s1 & s2 & H & H1 & H2). destruct s1 as [|c' s1].
        -- right. simpl in H. subst s2. exact H2.
        -- left. simpl in H. injection H as <- ->. exists s1, s2. auto.
    + rewrite Hcat. split.
      * intros (s1 & s2 & H & H1 & H2). exists (c :: s1), s2. auto.
      * intros (s1 & s2 & H & H1 & H2). destruct s1 as [|c' s1].
        -- apply nullable_spec in H1. congruence.
        -- simpl in H. injection H as <- ->. exists s1, s2. auto.
  - rewrite IH1, IH2. tauto.
  - split.
    + intros (s1 & s2 & -> & H1 & H2). apply IH1 in H1.
      change (c :: s1 ++ s2) with ((c :: s1) ++ s2). constructor; [discriminate|auto..].
    + intros H. apply star_cons_inv in H as (s1 & s2 & -> & H1 & H2).
      exists s1, s2. rewrite IH1. auto.
Qed.

Lemma matches_spec r s : Re.matches r s = true ↔ lang r s.
Proof.
  revert r. induction s as [|c s IH]; intros r; simpl.
  - apply nullable_spec.
  - rewrite IH. apply deriv_spec.
Qed.

Lemma star_class p s : star (lang (Re.Class p)) s ↔ Forall (λ c, p c = true) s.
Proof.
  split.
  - induction 1 as [|s1 s2 _ (c & -> & Hp) _ IH]; [constructor|].
    simpl. constructor; assumption.
  - induction 1 as [|c s Hp _ IH]; [constructor|].
    change (c :: s) with ([c] ++ s). constructor; [discriminate| |exact IH].
    simpl. eauto.
Qed.

Lemma lang_plus_class p s :
  lang (Re.plus (Re.Class p)) s ↔ s ≠ [] ∧ Forall (λ c, p c = true) s.
Proof.
  unfold Re.plus. cbn [lang]. split.
  - intros (s1 & s2 & -> & (c & -> & Hp) & H). apply star_class in H.
    split; [discriminate | constructor; assumption].
  - intros [Hne H]. destruct H as [|c s Hp H]; [contradiction|].
    exists [c], s. split; [reflexivity|]. split; [eauto|].
    apply (proj2 (star_class p s)). exact H.
Qed.

Lemma lang_at_least_two_class p s :
  lang (Re.at_least_two (Re.Class p)) s
  ↔ (2 ≤ List.length s)%nat ∧ Forall (λ c, p c = true) s.
Proof.
  unfold Re.at_least_two. cbn [lang]. split.
  - intros (s1 & s2 & -> & (c & -> & Hp) & s3 & s4 & -> & (c' & -> & Hp') & H).
    apply star_class in H. split; [simpl; lia | repeat constructor; assumption].
  - intros [Hlen H]. destruct H as [|c s Hp H]; [simpl in Hlen; lia|].
    destruct H as [|c' s Hp' H]; [simpl in Hlen; lia|].
    exists [c], (c' :: s). split; [reflexivity|]. split; [eauto|].
    exists [c'], s. split; [reflexivity|]. split; [eauto|].
    apply (proj2 (star_class p s)). exact H.
Qed.

Lemma lang_chr c s : lang (Re.chr c) s ↔ s = [c].
Proof.
  unfold Re.chr. cbn [lang]. split.
  - intros (x & -> & H). apply bool_decide_eq_true in H. congruence.
  - intros ->. exists c. split; [reflexivity | apply bool_decide_eq_true; reflexivity].
Qed.

(** The three bracketed sets of the pattern, read with IGNORECASE. *)
Lemma local_set c :
  Re.in_set true [Re.Range "A" "Z"; Re.Range "0" "9";
                  Re.Lit "."; Re.Lit "_"; Re.Lit "%"; Re.Lit "+"; Re.Lit "-"] c
  = is_local_char c.
Proof. destruct c as [[] [] [] [] [] [] [] []]; vm_compute; reflexivity. Qed.

Lemma domain_set c :
  Re.in_set true [Re.Range "A" "Z"; Re.Range "0" "9"; Re.Lit "."; Re.Lit "-"] c
  = is_domain_char c.
Proof. destruct c as [[] [] [] [] [] [] [] []]; vm_compute; reflexivity. Qed.

Lemma letter_set c : Re.in_set true [Re.Range "A" "Z"] c = is_letter c.
Proof. destruct c as [[] [] [] [] [] [] [] []]; vm_compute; reflexivity. Qed.

Lemma Forall_eq_true (p q : ascii -> bool) s :
  (∀ c, p c = q c) -> Forall (λ c, p c = true) s ↔ Forall (λ c, q c = true) s.
Proof. intros H. apply Forall_proper; [|reflexivity]. intros c. rewrite H. reflexivity. Qed.

Lemma lang_EMAIL_RE s : lang EMAIL_RE s ↔ email_shape s.
Proof.
  unfold EMAIL_RE, email_shape.
  cbn [lang]. split.
  - intros (l & s1 & -> & Hl & a & s2 & -> & Ha & d & s3 & -> & Hd & o & t & -> & Ho & Ht).
    apply lang_plus_class in Hl as [Hl1 Hl2]. apply lang_chr in Ha as ->.
    apply lang_plus_class in Hd as [Hd1 Hd2]. apply lang_chr in Ho as ->.
    apply lang_at_least_two_class in Ht as [Ht1 Ht2].
    exists l, d, t.
    rewrite (Forall_eq_true _ _ _ local_set) in Hl2.
    rewrite (Forall_eq_true _ _ _ domain_set) in Hd2.
    rewrite (Forall_eq_true _ _ _ letter_set) in Ht2.
    repeat split; assumption.
  - intros (l & d & t & -> & Hl1 & Hl2 & Hd1 & Hd2 & Ht1 & Ht2).
    rewrite <- (Forall_eq_true _ _ _ local_set) in Hl2.
    rewrite <- (Forall_eq_true _ _ _ domain_set) in Hd2.
    rewrite <- (Forall_eq_true _ _ _ letter_set) in Ht2.
    exists l, ("@"%char :: d ++ "."%char :: t). split; [reflexivity|].
    split; [apply lang_plus_class; auto|].
    exists ["@"%char], (d ++ "."%char :: t). split; [reflexivity|].
    split; [apply lang_chr; reflexivity|].
    exists d, ("."%char :: t). split; [reflexivity|].
    split; [apply lang_plus_class; auto|].
    exists ["."%char], t. split; [reflexivity|].
    split; [apply lang_chr; reflexivity|].
    apply lang_at_least_two_class; auto.
Qed.

(** What [EMAIL_RE.match] accepts: an address, or an address followed
    by one newline. *)
Lemma EMAIL_RE_match_spec s :
  EMAIL_RE_match s = true
  ↔ email_shape (list_ascii_of_string s)
    ∨ ∃ l, list_ascii_of_string s = l ++ ["010"%char] ∧ email_shape l.
Proof.
  unfold EMAIL_RE_match, Re.match_anchored.
  rewrite orb_true_iff, matches_spec, lang_EMAIL_RE.
  apply or_iff_compat_l.
  destruct (reverse (list_ascii_of_string s)) as [|c l'] eqn:E.
  - split; [discriminate|]. intros (l & H & _). rewrite H, reverse_app in E. discriminate.
  - assert (Hl : list_ascii_of_string s = reverse l' ++ [c]).
    { rewrite <- (reverse_involutive (list_ascii_of_string s)), E. apply reverse_cons. }
    rewrite andb_true_iff, matches_spec, lang_EMAIL_RE, N.eqb_eq. split.
    + intros [Hc H]. exists (reverse l'). split; [|exact H]. rewrite Hl. f_equal. f_equal.
      rewrite <- (ascii_N_embedding c). unfold Py.code in Hc. rewrite Hc. reflexivity.
    + intros (l & H & Hs). rewrite Hl in H. apply app_inj_tail in H as [-> ->].
      split; [reflexivity | exact Hs].
Qed.

Lemma lstrip_head l c l' : Py.lstrip l = c :: l' -> Py.isspace c = false.
Proof.
  induction l as [|x l IH]; simpl; [discriminate|].
  destruct (Py.isspace x) eqn:E; [exact IH|]. intros H. injection H as <- _. exact E.
Qed.

Lemma rstrip_last l l' c : Py.rstrip l = l' ++ [c] -> Py.isspace c = false.
Proof.
  unfold Py.rstrip. intros H.
  apply (f_equal reverse) in H. rewrite reverse_involutive, reverse_app in H.
  simpl in H. exact (lstrip_head _ _ _ H).
Qed.

Lemma strip_list s :
  list_ascii_of_string (Py.strip s)
  = Py.rstrip (Py.lstrip (list_ascii_of_string s)).
Proof. unfold Py.strip. apply list_ascii_of_string_of_list_ascii. Qed.

(** On a stripped string the pattern accepts the addresses and nothing else. *)
Lemma EMAIL_RE_match_strip s :
  EMAIL_RE_match (Py.strip s) = true
  ↔ email_shape (list_ascii_of_string (Py.strip s)).
Proof.
  rewrite EMAIL_RE_match_spec. split; [|tauto].
  intros [H | (l & H & _)]; [exact H|].
  rewrite strip_list in H. apply rstrip_last in H. discriminate.
Qed.

(** ** Facts about the calendar, the worksheet and the header *)

Lemma isoformat_seconds_whole t :
  DateTime.isoformat_seconds t
  = DateTime.isoformat_seconds (t / DateTime.us_per_second * DateTime.us_per_second).
Proof.
  unfold DateTime.isoformat_seconds, DateTime.us_per_day, DateTime.us_per_second.
  assert (Hd : t / 1000000 * 1000000 / (86400 * 1000000) = t / (86400 * 1000000)).
  { rewrite (Z.mul_comm 86400), <- !Z.div_div by lia. rewrite Z.div_mul by lia. reflexivity. }
  assert (Hs : (t / 1000000 * 1000000) mod (86400 * 1000000) / 1000000
               = t mod (86400 * 1000000) / 1000000).
  { rewrite !Z.mod_eq, Hd by lia.
    replace (t / 1000000 * 1000000 - 86400 * 1000000 * (t / (86400 * 1000000)))
      with ((t / 1000000 - 86400 * (t / (86400 * 1000000))) * 1000000) by ring.
    replace (t - 86400 * 1000000 * (t / (86400 * 1000000)))
      with (t + (- (86400 * (t / (86400 * 1000000)))) * 1000000) by ring.
    rewrite Z.div_mul, Z.div_add by lia. ring. }
  rewrite Hd, Hs. reflexivity.
Qed.

Lemma index_Some x l i :
  Py.index x l = Some i ↔ l !! i = Some x ∧ ∀ j, (j < i)%nat -> l !! j ≠ Some x.
Proof.
  unfold Py.index. split.
  - destruct (list_find _ l) as [[k y]|] eqn:E; [|discriminate]. simpl.
    intros [= <-]. apply list_find_Some in E as (Hk & -> & Hlt). split; [exact Hk|].
    intros j Hj Hx. exact (Hlt j x Hx Hj eq_refl).
  - intros [Hi Hlt]. assert (E : list_find (λ y, y = x) l = Some (i, x)).
    { apply list_find_Some. split; [exact Hi|]. split; [reflexivity|].
      intros j y Hy Hj ->. exact (Hlt j Hj Hy). }
    rewrite E. reflexivity.
Qed.

Lemma index_None x l : Py.index x l = None ↔ x ∉ l.
Proof.
  unfold Py.index. destruct (list_find _ l) as [[k y]|] eqn:E; simpl.
  - split; [discriminate|]. intros H. apply list_find_Some in E as (Hk & -> & _).
    exfalso. apply H. eapply list_elem_of_lookup_2. exact Hk.
  - split; [|reflexivity]. intros _ Hx. apply list_find_None in E.
    rewrite Forall_forall in E. exact (E x Hx eq_refl).
Qed.

Lemma opened_header ws : Sheet.row_values 1 ws ≠ [] -> opened ws = ws.
Proof. unfold opened. destruct (Sheet.row_values 1 ws); [contradiction | reflexivity]. Qed.

Lemma recorded_list ws uid :
  recorded ws uid ↔ Py.str uid ∈ drop 1 (Sheet.col_values (id_column ws) ws).
Proof.
  rewrite <- recorded_iff, bool_decide_eq_true. apply elem_of_list_to_set.
Qed.

(** Every valid private submission takes one of five paths. *)
Lemma handle_email_cases cfg env update w :
  Tg.effective_chat_type update = "private" ->
  EMAIL_RE_match (email_of update) = true ->
  let uid := Tg.id (Tg.effective_user update) in
  let ws1 := opened (sheet w) in
  let log1 := log w ++ get_ws_events cfg (sheet w)
              ++ [EvRowValues 1; EvColValues (id_column (opened (sheet w)))] in
  (recorded ws1 uid
   ∧ handle_email cfg env update w
     = (inr END, mkWorld ws1 (log1 ++ [EvReplyText already_submitted_text])))
  ∨ (¬ recorded ws1 uid
     ∧ ((DateTime.add_minutes (now_expire env) (INVITE_EXPIRE_MINUTES cfg) = None
         ∧ handle_email cfg env update w
           = (inl (mkException "OverflowError" (overflow_text env)),
              mkWorld ws1 log1))
        ∨ ∃ t, DateTime.add_minutes (now_expire env) (INVITE_EXPIRE_MINUTES cfg) = Some t
           ∧ ((Py.int (GROUP_CHAT_ID cfg) = None
               ∧ handle_email cfg env update w
                 = (inr END,
                    mkWorld ws1 (log1 ++ [EvReplyText (invite_failed_text
                      (mkException "ValueError" (int_error_text env (GROUP_CHAT_ID cfg))))])))
              ∨ ∃ cid, Py.int (GROUP_CHAT_ID cfg) = Some cid
                 ∧ ((∃ e, bot_api env (invite_request env uid t cid) = inl e
                      ∧ handle_email cfg env update w
                        = (inr END,
                           mkWorld ws1
                             (log1 ++ [EvCreateChatInviteLink (invite_request env uid t cid);
                                       EvReplyText (invite_failed_text e)])))
                    ∨ ∃ link, bot_api env (invite_request env uid t cid) = inr link
                       ∧ handle_email cfg env update w
                         = (inr END,
                            mkWorld
                              (Sheet.append_row
                                 (submission_row env (Tg.effective_user update)
                                    (email_of update) link) ws1)
                              (log1 ++ [EvCreateChatInviteLink (invite_request env uid t cid);
                                        EvAppendRow
                                          (submission_row env (Tg.effective_user update)
                                             (email_of update) link) (Some "RAW");
                                        EvReplyText (invite_text link)])))))).
Proof.
  intros Hp Hv uid ws1 log1.
  destruct (bool_decide (Py.str uid ∈ (list_to_set
             (drop 1 (Sheet.col_values (id_column ws1) ws1)) : gset string))) eqn:E.
  { left. apply recorded_iff in E. split; [exact E|].
    apply handle_email_duplicate; assumption. }
  right. assert (Hf : ¬ recorded ws1 uid).
  { intros H. apply recorded_iff in H. congruence. }
  split; [exact Hf|].
  destruct (DateTime.add_minutes (now_expire env) (INVITE_EXPIRE_MINUTES cfg)) as [t|] eqn:Et.
  2:{ left. split; [reflexivity|]. apply handle_email_overflow; assumption. }
  right. exists t. split; [reflexivity|].
  destruct (Py.int (GROUP_CHAT_ID cfg)) as [cid|] eqn:Ec.
  2:{ left. split; [reflexivity|]. eapply handle_email_bad_chat_id; eassumption. }
  right. exists cid. split; [reflexivity|].
  destruct (bot_api env (invite_request env uid t cid)) as [e|link] eqn:Ea.
  - left. exists e. split; [reflexivity|]. eapply handle_email_api_error; eassumption.
  - right. exists link. split; [reflexivity|]. eapply handle_email_success; eassumption.
Qed.

Lemma get_ws_events_append cfg ws values option :
  EvAppendRow values option ∈ get_ws_events cfg ws ->
  values = HEADER ∧ option = None ∧ Sheet.row_values 1 ws = [].
Proof.
  unfold get_ws_events. destruct (Sheet.row_values 1 ws); simpl; intros H.
  - repeat (apply elem_of_cons in H as [H|H]; [try discriminate|]).
    + injection H as -> ->. auto.
    + apply elem_of_nil in H. contradiction.
  - repeat (apply elem_of_cons in H as [H|H]; [discriminate|]).
    apply elem_of_nil in H. contradiction.
Qed.

Lemma invite_outcome_cases cfg env uid t r :
  invite_outcome cfg env uid t = r ->
  (Py.int (GROUP_CHAT_ID cfg) = None
   ∧ r = inl (mkException "ValueError" (int_error_text env (GROUP_CHAT_ID cfg))))
  ∨ ∃ cid, Py.int (GROUP_CHAT_ID cfg) = Some cid
           ∧ bot_api env (invite_request env uid t cid) = r.
Proof.
  unfold invite_outcome. destruct (Py.int (GROUP_CHAT_ID cfg)) as [cid|]; eauto.
Qed.

Lemma elem_of_two {A} (x a b : A) : x ∈ [a; b] -> x = a ∨ x = b.
Proof.
  intros H. apply elem_of_cons in H as [H|H]; [auto|].
  apply elem_of_cons in H as [H|H]; [auto|]. apply elem_of_nil in H. contradiction.
Qed.

(** The events of an admission up to the invite write nothing but,
    on a worksheet without first row, the header. *)
Lemma admission_prefix_append cfg ws c extra values option :
  (∀ v o, EvAppendRow v o ∉ extra) ->
  EvAppendRow values option
    ∈ get_ws_events cfg ws ++ [EvRowValues 1; EvColValues c] ++ extra ->
  values = HEADER ∧ option = None ∧ Sheet.row_values 1 ws = [].
Proof.
  intros Hx H. apply elem_of_app in H as [H|H].
  - exact (get_ws_events_append _ _ _ _ H).
  - apply elem_of_app in H as [H|H].
    + apply elem_of_two in H as [H|H]; discriminate.
    + exfalso. exact (Hx _ _ H).
Qed.

Lemma not_recorded_check ws uid :
  bool_decide (Py.str uid ∈ drop 1 (Sheet.col_values (id_column ws) ws)) = false ->
  ¬ recorded ws uid.
Proof. rewrite bool_decide_eq_false, recorded_list. auto. Qed.

Lemma add_minutes_Some t m r :
  DateTime.add_minutes t m = Some r -> r = t + m * 60 * DateTime.us_per_second.
Proof.
  unfold DateTime.add_minutes.
  destruct (DateTime.in_range _); [intros [= <-]; reflexivity | discriminate].
Qed.

(** Rounding to the nearest integer moves a quotient by less than one. *)
Lemma round_half_even_cases n d :
  DateTime.round_half_even n d = n / d
  ∨ (DateTime.round_half_even n d = n / d + 1 ∧ d <= 2 * (n mod d)).
Proof.
  unfold DateTime.round_half_even.
  destruct (2 * (n mod d) <? d) eqn:E1; [left; reflexivity|].
  apply Z.ltb_ge in E1.
  destruct (d <? 2 * (n mod d)); [right; auto|].
  destruct (Z.even (n / d)); [left; reflexivity | right; auto].
Qed.

(** Up to 2^34 seconds from the epoch (the year 2514) the double keeps
    the whole second: [int(t.timestamp())] is the quotient. *)
Lemma timestamp_int_exact t :
  0 <= t < 2 ^ 34 * DateTime.us_per_second ->
  DateTime.timestamp_int t = t / DateTime.us_per_second.
Proof.
  unfold DateTime.timestamp_int, DateTime.us_per_second. intros [H0 Hlt].
  rewrite (Z.abs_eq t H0).
  assert (Hq : 0 <= t / 1000000 < 2 ^ 34).
  { split; [apply Z.div_pos; lia | apply Z.div_lt_upper_bound; lia]. }
  destruct (t / 1000000 =? 0) eqn:Eq0; [apply Z.eqb_eq in Eq0; lia|].
  apply Z.eqb_neq in Eq0.
  assert (Hpos : 0 < t).
  { destruct (Z.eq_dec t 0) as [->|]; [exfalso; apply Eq0; reflexivity | lia]. }
  set (q := t / 1000000) in *.
  assert (He : 0 <= Z.log2 q < 34).
  { split; [apply Z.log2_nonneg | apply Z.log2_lt_pow2; lia]. }
  assert (Hs : Z.sgn t = 1) by (apply Z.sgn_pos; exact Hpos).
  rewrite Hs, Z.mul_1_l.
  destruct (Z.log2 q <=? 52) eqn:E52; [|apply Z.leb_gt in E52; lia].
  set (P := 2 ^ (52 - Z.log2 q)).
  assert (HP : 524288 <= P).
  { change 524288 with (2 ^ 19). apply Z.pow_le_mono_r; lia. }
  pose proof (Z.div_mod t 1000000 ltac:(lia)) as Ht. fold q in Ht.
  pose proof (Z.mod_pos_bound t 1000000 ltac:(lia)) as Hr.
  set (r := t mod 1000000) in *.
  set (X := r * P).
  assert (HX : 0 <= X <= 999999 * P) by (unfold X; nia).
  pose proof (Z.div_mod X 1000000 ltac:(lia)) as HXd.
  pose proof (Z.mod_pos_bound X 1000000 ltac:(lia)) as HXr.
  set (j := X / 1000000) in *. set (rem := X mod 1000000) in *.
  assert (Hn : t * P = 1000000 * (q * P + j) + rem) by (unfold X in *; nia).
  assert (Hk : t * P / 1000000 = q * P + j).
  { symmetry. apply (Z.div_unique _ _ _ rem); lia. }
  assert (Hm : (t * P) mod 1000000 = rem).
  { symmetry. apply (Z.mod_unique _ _ (q * P + j)); lia. }
  destruct (round_half_even_cases (t * P) 1000000) as [E | [E Hup]]; rewrite E, Hk.
  - symmetry. apply (Z.div_unique _ _ _ j); lia.
  - rewrite Hm in Hup. symmetry. apply (Z.div_unique _ _ _ (j + 1)); lia.
Qed.

Lemma timestamp_int_add_minutes t m :
  0 <= t -> 0 <= m ->
  t + m * 60 * DateTime.us_per_second < 2 ^ 34 * DateTime.us_per_second ->
  DateTime.timestamp_int (t + m * 60 * DateTime.us_per_second)
  = t / DateTime.us_per_second + 60 * m.
Proof.
  intros Ht Hm Hb. rewrite timestamp_int_exact.
  - unfold DateTime.us_per_second.
    replace (t + m * 60 * 1000000) with (t + (60 * m) * 1000000) by ring.
    apply Z.div_add. lia.
  - unfold DateTime.us_per_second in *. lia.
Qed.

Lemma load_config_set_minutes int_text (environ : gmap string string) v m :
  environ !! "INVITE_EXPIRE_MINUTES" = Some v -> Py.int v = Some m ->
  ∃ cfg, load_config int_text environ = inr cfg ∧ INVITE_EXPIRE_MINUTES cfg = m.
Proof.
  intros H Hi. unfold load_config, getenv. rewrite H. simpl default. rewrite Hi.
  eexists. split; reflexivity.
Qed.

Lemma load_config_default_minutes int_text (environ : gmap string string) :
  environ !! "INVITE_EXPIRE_MINUTES" = None ->
  ∃ cfg, load_config int_text environ = inr cfg ∧ INVITE_EXPIRE_MINUTES cfg = 10.
Proof.
  intros H. unfold load_config, getenv. rewrite H. simpl default.
  change (Py.int "10") with (Some 10). eexists. split; reflexivity.
Qed.

Lemma not_email_shape_check s :
  EMAIL_RE_match s = false -> ¬ email_shape (list_ascii_of_string s).
Proof.
  intros H Hs. assert (EMAIL_RE_match s = true) by (apply EMAIL_RE_match_spec; auto).
  congruence.
Qed.

(** On a worksheet that holds no value, or whose first row holds one,
    opening twice leaves what opening once leaves. *)
Lemma opened_idempotent ws :
  Sheet.row_values 1 ws ≠ [] ∨ Sheet.used_rows ws = [] ->
  opened (opened ws) = opened ws.
Proof.
  intros [H|H].
  - rewrite !(opened_header ws H). reflexivity.
  - unfold opened at 2 3. destruct (Sheet.row_values 1 ws) eqn:E.
    + unfold Sheet.append_row. rewrite H. reflexivity.
    + apply opened_header. rewrite E. discriminate.
Qed.

Lemma get_ws_twice_run cfg w :
  (get_ws cfg ;; get_ws cfg) w
  = (inr tt,
     mkWorld (opened (opened (sheet w)))
             (log w ++ get_ws_events cfg (sheet w) ++ get_ws_events cfg (opened (sheet w)))).
Proof.
  rewrite bind_run, get_ws_run, get_ws_run. cbn [sheet log].
  rewrite <- app_assoc. reflexivity.
Qed.

(** Where the header is there, or where there is nothing at all, the
    second of two calls of [get_ws] writes nothing. *)
Lemma get_ws_twice_once cfg w :
  Sheet.row_values 1 (sheet w) ≠ [] ∨ Sheet.used_rows (sheet w) = [] ->
  (get_ws cfg ;; get_ws cfg) w
  = (inr tt,
     mkWorld (opened (sheet w))
             (log w ++ get_ws_events cfg (sheet w)
              ++ [EvOpenByKey (GOOGLE_SERVICE_ACCOUNT_JSON cfg) (SHEET_ID cfg);
                  EvRowValues 1])).
Proof.
  intros H. rewrite get_ws_twice_run, (opened_idempotent _ H). do 3 f_equal.
  unfold get_ws_events.
  assert (Hne : Sheet.row_values 1 (opened (sheet w)) ≠ []).
  { destruct H as [H|H]; [rewrite (opened_header _ H); exact H|].
    unfold opened. destruct (Sheet.row_values 1 (sheet w)) eqn:E.
    - unfold Sheet.append_row. rewrite H. discriminate.
    - rewrite E. discriminate. }
  destruct (Sheet.row_values 1 (opened (sheet w))); [contradiction|]. reflexivity.
Qed.

(** The module globals that [must_env] inspects are the stripped
    values of the environment, the empty string for a variable not set. *)
Lemma load_config_required int_text (environ : gmap string string) cfg :
  load_config int_text environ = inr cfg ->
  BOT_TOKEN cfg = Py.strip (default "" (environ !! "BOT_TOKEN"))
  ∧ GROUP_CHAT_ID cfg = Py.strip (default "" (environ !! "GROUP_CHAT_ID"))
  ∧ SHEET_ID cfg = Py.strip (default "" (environ !! "SHEET_ID")).
Proof.
  unfold load_config, getenv.
  destruct (Py.int _); [|discriminate]. intros [= <-]. auto.
Qed.

(** ** The claims *)

(** C1, on the failing input.  On a worksheet whose first row is blank
    while the submission of user 42 stands below it, the id is found
    in the id column (column 2, no header naming another), and the
    run of that user replies with the rejection, returns END and
    requests no invite; but before the duplicate check [get_ws] has
    appended the header row, so that the run does append a new row
    and does not leave the worksheet as found. *)
Theorem C1_blank_first_row_header_before_rejection :
  recorded headless_sheet 42
  ∧ handle_email sample_cfg (sample_env api_ok)
      (sample_update "private" "ann@example.com" sample_user) (mkWorld headless_sheet [])
    = (inr END,
       mkWorld (headless_sheet ++ [HEADER])
         [EvOpenByKey "service-account.json" "sheet-key"; EvRowValues 1;
          EvAppendRow HEADER None;
          EvRowValues 1; EvColValues 2;
          EvReplyText already_submitted_text]).
Proof.
  split; [apply recorded_list; vm_compute; apply list_elem_of_here | vm_compute; reflexivity].
Qed.

(** C2 (amended). When the invite cannot be issued, because the chat
    id is no integer literal or because the Bot API raises, the handler
    replies with the diagnostic text that lists the likely causes and
    ends with the type and the message of the error, and returns END.
    No submission row is written: the worksheet is the one the
    open-or-create step left, which is the worksheet found whenever
    its first row was not empty, and the only row that may have been
    appended is the header, on a worksheet whose first row was empty. *)
Theorem C2_failed_invite_records_nothing cfg env update w expire_dt e :
  Tg.effective_chat_type update = "private" ->
  EMAIL_RE_match (email_of update) = true ->
  ¬ recorded (opened (sheet w)) (Tg.id (Tg.effective_user update)) ->
  DateTime.add_minutes (now_expire env) (INVITE_EXPIRE_MINUTES cfg) = Some expire_dt ->
  invite_outcome cfg env (Tg.id (Tg.effective_user update)) expire_dt = inl e ->
  ∃ evs,
    handle_email cfg env update w
    = (inr END,
       mkWorld (opened (sheet w))
               (log w ++ evs ++ [EvReplyText (invite_failed_text e)]))
    ∧ (∀ values option, EvAppendRow values option ∈ evs ->
         values = HEADER ∧ option = None ∧ Sheet.row_values 1 (sheet w) = [])
    ∧ (Sheet.row_values 1 (sheet w) ≠ [] -> opened (sheet w) = sheet w)
    ∧ invite_failed_text e
      = "I couldn't create an invite link. Common causes:
• bot is not an admin in the group
• bot lacks permission to manage invite links
• GROUP_CHAT_ID is wrong (supergroups often start with -100...)

Error: " +:+ exc_type e +:+ ": " +:+ exc_msg e.
Proof.
  intros Hp Hv Hf Ht Ho.
  apply invite_outcome_cases in Ho as [[Hc He] | (cid & Hc & Ha)].
  - injection He as He. subst e.
    exists (get_ws_events cfg (sheet w)
            ++ [EvRowValues 1; EvColValues (id_column (opened (sheet w)))] ++ []).
    split; [|split; [|split; [apply opened_header | reflexivity]]].
    + rewrite (handle_email_bad_chat_id cfg env update w Hp Hv Hf _ Ht Hc).
      rewrite app_nil_r, <- !app_assoc. reflexivity.
    + intros values option. apply admission_prefix_append.
      intros v o H. apply elem_of_nil in H. contradiction.
  - exists (get_ws_events cfg (sheet w)
            ++ [EvRowValues 1; EvColValues (id_column (opened (sheet w)))]
            ++ [EvCreateChatInviteLink
                  (invite_request env (Tg.id (Tg.effective_user update)) expire_dt cid)]).
    split; [|split; [|split; [apply opened_header | reflexivity]]].
    + rewrite (handle_email_api_error cfg env update w Hp Hv Hf _ Ht _ Hc _ Ha).
      rewrite <- !app_assoc. reflexivity.
    + intros values option. apply admission_prefix_append.
      intros v o H. apply elem_of_cons in H as [H|H]; [discriminate|].
      apply elem_of_nil in H. contradiction.
Qed.

Lemma C2_witness :
  ∃ evs,
    handle_email sample_cfg (sample_env api_forbidden)
      (sample_update "private" "bob@example.com" other_user) (mkWorld sample_sheet [])
    = (inr END,
       mkWorld (opened sample_sheet)
         ([] ++ evs ++ [EvReplyText (invite_failed_text
            (mkException "Forbidden" "not enough rights to manage chat invite link"))]))
    ∧ (∀ values option, EvAppendRow values option ∈ evs ->
         values = HEADER ∧ option = None ∧ Sheet.row_values 1 sample_sheet = [])
    ∧ (Sheet.row_values 1 sample_sheet ≠ [] -> opened sample_sheet = sample_sheet)
    ∧ invite_failed_text
        (mkException "Forbidden" "not enough rights to manage chat invite link")
      = "I couldn't create an invite link. Common causes:
• bot is not an admin in the group
• bot lacks permission to manage invite links
• GROUP_CHAT_ID is wrong (supergroups often start with -100...)

Error: " +:+ "Forbidden" +:+ ": " +:+ "not enough rights to manage chat invite link".
Proof.
  apply (C2_failed_invite_records_nothing sample_cfg (sample_env api_forbidden)
           (sample_update "private" "bob@example.com" other_user)
           (mkWorld sample_sheet []) 1700000600123456).
  - reflexivity.
  - vm_compute. reflexivity.
  - apply not_recorded_check. vm_compute. reflexivity.
  - vm_compute. reflexivity.
  - vm_compute. reflexivity.
Defined.

(** C2, as stated, fails on a worksheet that is still empty: the invite
    is refused by the Bot API, and yet the run has appended a row, the
    header, so that the worksheet is not the one found. *)
Lemma C2_counterexample :
  bot_api (sample_env api_forbidden)
    (invite_request (sample_env api_forbidden) 7 1700000600123456 (-1001234567890))
  = inl (mkException "Forbidden" "not enough rights to manage chat invite link")
  ∧ handle_email sample_cfg (sample_env api_forbidden)
      (sample_update "private" "bob@example.com" other_user) (mkWorld [] [])
    = (inr END,
       mkWorld [HEADER]
         [EvOpenByKey "service-account.json" "sheet-key";
          EvRowValues 1;
          EvAppendRow HEADER None;
          EvRowValues 1;
          EvColValues 2;
          EvCreateChatInviteLink
            (mkInviteRequest (-1001234567890) 1 1700000600 false "patreon_gate_7_1700000000");
          EvReplyText (invite_failed_text
            (mkException "Forbidden" "not enough rights to manage chat invite link"))])
  ∧ sheet (snd (handle_email sample_cfg (sample_env api_forbidden)
                  (sample_update "private" "bob@example.com" other_user) (mkWorld [] [])))
    ≠ sheet (mkWorld [] []).
Proof.
  split; [reflexivity|]. split; [vm_compute; reflexivity|]. vm_compute. discriminate.
Qed.

(** C3. In a private chat, with a message whose stripped text matches
    the pattern, a user id that is not recorded and an invite that is
    issued, the handler returns END after appending exactly one
    submission row, in RAW mode, as the last row of the worksheet: the
    UTC timestamp to the second, the user id as a decimal string, the
    username or the empty string, the first and last name joined by a
    space with absent parts left out, the stripped e-mail and the
    invite link.  The reply that follows ends with the invite link.
    Before that row the run appends nothing, except the header on a
    worksheet whose first row was empty. *)
Theorem C3_valid_submission_is_recorded cfg env update w expire_dt link :
  Tg.effective_chat_type update = "private" ->
  EMAIL_RE_match (email_of update) = true ->
  ¬ recorded (opened (sheet w)) (Tg.id (Tg.effective_user update)) ->
  DateTime.add_minutes (now_expire env) (INVITE_EXPIRE_MINUTES cfg) = Some expire_dt ->
  invite_outcome cfg env (Tg.id (Tg.effective_user update)) expire_dt = inr link ->
  let user := Tg.effective_user update in
  let row := [ DateTime.isoformat_seconds (now_append env);
               Py.str (Tg.id user);
               default "" (Tg.username user);
               full_name_of user;
               email_of update;
               link ] in
  ∃ evs,
    handle_email cfg env update w
    = (inr END,
       mkWorld (Sheet.used_rows (opened (sheet w)) ++ [row])
               (log w ++ evs ++ [EvAppendRow row (Some "RAW");
                                 EvReplyText (invite_text link)]))
    ∧ (∀ values option, EvAppendRow values option ∈ evs ->
         values = HEADER ∧ option = None ∧ Sheet.row_values 1 (sheet w) = [])
    ∧ (Sheet.row_values 1 (sheet w) ≠ [] -> opened (sheet w) = sheet w)
    ∧ (∃ intro, invite_text link = intro +:+ link)
    ∧ DateTime.isoformat_seconds (now_append env)
      = DateTime.isoformat_seconds
          (now_append env / DateTime.us_per_second * DateTime.us_per_second).
Proof.
  intros Hp Hv Hf Ht Ho user row.
  apply invite_outcome_cases in Ho as [[_ He] | (cid & Hc & Ha)]; [discriminate|].
  exists (get_ws_events cfg (sheet w)
          ++ [EvRowValues 1; EvColValues (id_column (opened (sheet w)))]
          ++ [EvCreateChatInviteLink (invite_request env (Tg.id user) expire_dt cid)]).
  split; [|split; [|split; [apply opened_header | split]]].
  - rewrite (handle_email_success cfg env update w Hp Hv Hf _ Ht _ Hc _ Ha).
    unfold Sheet.append_row, submission_row. fold user. fold row.
    rewrite <- !app_assoc. reflexivity.
  - intros values option. apply admission_prefix_append.
    intros v o H. apply elem_of_cons in H as [H|H]; [discriminate|].
    apply elem_of_nil in H. contradiction.
  - eexists. reflexivity.
  - apply isoformat_seconds_whole.
Qed.

Lemma C3_witness :
  ∃ evs,
    handle_email sample_cfg (sample_env api_ok)
      (sample_update "private" "  bob@example.com " other_user) (mkWorld sample_sheet [])
    = (inr END,
       mkWorld (Sheet.used_rows (opened sample_sheet)
                ++ [[ "2023-11-14T22:13:21+00:00"; "7"; "bob"; "Bob"; "bob@example.com";
                      "https://t.me/+AbCdEf" ]])
               ([] ++ evs
                ++ [EvAppendRow
                      [ "2023-11-14T22:13:21+00:00"; "7"; "bob"; "Bob"; "bob@example.com";
                        "https://t.me/+AbCdEf" ] (Some "RAW");
                    EvReplyText (invite_text "https://t.me/+AbCdEf")]))
    ∧ (∀ values option, EvAppendRow values option ∈ evs ->
         values = HEADER ∧ option = None ∧ Sheet.row_values 1 sample_sheet = [])
    ∧ (Sheet.row_values 1 sample_sheet ≠ [] -> opened sample_sheet = sample_sheet)
    ∧ (∃ intro, invite_text "https://t.me/+AbCdEf" = intro +:+ "https://t.me/+AbCdEf")
    ∧ DateTime.isoformat_seconds 1700000001999999
      = DateTime.isoformat_seconds
          (1700000001999999 / DateTime.us_per_second * DateTime.us_per_second).
Proof.
  apply (C3_valid_submission_is_recorded sample_cfg (sample_env api_ok)
           (sample_update "private" "  bob@example.com " other_user)
           (mkWorld sample_sheet []) 1700000600123456 "https://t.me/+AbCdEf").
  - reflexivity.
  - vm_compute. reflexivity.
  - apply not_recorded_check. vm_compute. reflexivity.
  - vm_compute. reflexivity.
  - vm_compute. reflexivity.
Defined.

(** C4 (amended). In a private chat, a message whose stripped text is
    not an address of the pattern (a local part of letters, digits and
    [._%+-], an [@], a domain of letters, digits, dots and hyphens, a
    dot and a last label of at least two letters, in either case)
    keeps the conversation in ASK_EMAIL: the handler sends the
    corrective prompt and nothing else, so that the worksheet is
    neither opened nor read nor written and no invite is requested. *)
Theorem C4_invalid_email_reprompts cfg env update w :
  Tg.effective_chat_type update = "private" ->
  ¬ email_shape (list_ascii_of_string (Py.strip (Py.or_empty (Tg.message_text update)))) ->
  handle_email cfg env update w
  = (inr ASK_EMAIL, mkWorld (sheet w) (log w ++ [EvReplyText invalid_email_text])).
Proof.
  intros Hp Hs. apply handle_email_invalid; [exact Hp|].
  unfold email_of. destruct (EMAIL_RE_match _) eqn:E; [|reflexivity].
  apply EMAIL_RE_match_strip in E. contradiction.
Qed.

Lemma C4_witness :
  handle_email sample_cfg (sample_env api_ok)
    (sample_update "private" " not-an-email " other_user) (mkWorld sample_sheet [])
  = (inr ASK_EMAIL, mkWorld sample_sheet ([] ++ [EvReplyText invalid_email_text])).
Proof.
  apply (C4_invalid_email_reprompts sample_cfg (sample_env api_ok)
           (sample_update "private" " not-an-email " other_user) (mkWorld sample_sheet [])).
  - reflexivity.
  - apply not_email_shape_check. vm_compute. reflexivity.
Defined.

(** C4, as stated, fails on a text that only a blank keeps from the
    pattern: the text itself does not match, and yet the handler goes
    on to the admission, requests an invite and appends a row. *)
Lemma C4_counterexample :
  EMAIL_RE_match " bob@example.com" = false
  ∧ ¬ email_shape (list_ascii_of_string " bob@example.com")
  ∧ handle_email sample_cfg (sample_env api_ok)
      (sample_update "private" " bob@example.com" other_user) (mkWorld sample_sheet [])
    = (inr END,
       mkWorld
         (sample_sheet
          ++ [[ "2023-11-14T22:13:21+00:00"; "7"; "bob"; "Bob"; "bob@example.com";
                "https://t.me/+AbCdEf" ]])
         [EvOpenByKey "service-account.json" "sheet-key"; EvRowValues 1; EvRowValues 1;
          EvColValues 2;
          EvCreateChatInviteLink
            (mkInviteRequest (-1001234567890) 1 1700000600 false "patreon_gate_7_1700000000");
          EvAppendRow
            [ "2023-11-14T22:13:21+00:00"; "7"; "bob"; "Bob"; "bob@example.com";
              "https://t.me/+AbCdEf" ] (Some "RAW");
          EvReplyText (invite_text "https://t.me/+AbCdEf")]).
Proof.
  split; [vm_compute; reflexivity|]. split.
  - apply not_email_shape_check. vm_compute. reflexivity.
  - vm_compute. reflexivity.
Qed.

(** C5. The duplicate check reads the first row, then one column: the
    column of the first cell of the first row that reads
    telegram_user_id, or column 2 when no cell of the first row reads
    so.  It writes nothing, and it answers true exactly when the user
    id, rendered as a decimal string, stands in that column below the
    first row. *)
Theorem C5_duplicate_check uid w :
  ∃ (c : nat) (b : bool),
    user_already_submitted uid w
    = (inr b, mkWorld (sheet w) (log w ++ [EvRowValues 1; EvColValues c]))
    ∧ ((∃ i : nat,
          Sheet.row_values 1 (sheet w) !! i = Some "telegram_user_id"
          ∧ (∀ j : nat, (j < i)%nat ->
               Sheet.row_values 1 (sheet w) !! j ≠ Some "telegram_user_id")
          ∧ c = (i + 1)%nat)
       ∨ (("telegram_user_id" ∉ Sheet.row_values 1 (sheet w)) ∧ c = 2%nat))
    ∧ (b = true
       ↔ ∃ r : nat, (1 ≤ r)%nat ∧ Sheet.col_values c (sheet w) !! r = Some (Py.str uid)).
Proof.
  exists (id_column (sheet w)). eexists. split; [apply user_already_submitted_run|].
  split.
  - unfold id_column.
    destruct (Py.index "telegram_user_id" (Sheet.row_values 1 (sheet w))) as [i|] eqn:E.
    + left. exists i. apply index_Some in E as [H1 H2]. auto.
    + right. apply index_None in E. auto.
  - apply recorded_iff.
Qed.

(** C6. Every invite request the handler sends asks for a link with a
    member limit of one and without join requests, whose expiry is
    [int(t.timestamp())] for [t] the reading of the clock plus the
    configured number of minutes (the clock's whole second plus sixty
    times the minutes as long as neither is negative and the expiry
    lies before 2^34 seconds, where the double is exact), and whose
    name is patreon_gate_, the user id, an underscore and the whole
    second of [time.time()].  The number of minutes is 10 when
    INVITE_EXPIRE_MINUTES is not set, and the integer the variable
    spells when it is set. *)
Theorem C6_invite_request_constraints cfg env update w evs req :
  log (snd (handle_email cfg env update w)) = log w ++ evs ->
  EvCreateChatInviteLink req ∈ evs ->
  member_limit req = 1
  ∧ creates_join_request req = false
  ∧ expire_date req
    = DateTime.timestamp_int
        (now_expire env + INVITE_EXPIRE_MINUTES cfg * 60 * DateTime.us_per_second)
  ∧ (0 <= now_expire env -> 0 <= INVITE_EXPIRE_MINUTES cfg ->
     now_expire env + INVITE_EXPIRE_MINUTES cfg * 60 * DateTime.us_per_second
     < 2 ^ 34 * DateTime.us_per_second ->
     expire_date req
     = now_expire env / DateTime.us_per_second + 60 * INVITE_EXPIRE_MINUTES cfg)
  ∧ name req
    = "patreon_gate_" +:+ Py.str (Tg.id (Tg.effective_user update)) +:+ "_"
      +:+ Py.str (DateTime.time_int (time_time env))
  ∧ (∀ int_text (environ : gmap string string),
       environ !! "INVITE_EXPIRE_MINUTES" = None ->
       ∃ cfg', load_config int_text environ = inr cfg' ∧ INVITE_EXPIRE_MINUTES cfg' = 10)
  ∧ (∀ int_text (environ : gmap string string) v m,
       environ !! "INVITE_EXPIRE_MINUTES" = Some v -> Py.int v = Some m ->
       ∃ cfg', load_config int_text environ = inr cfg' ∧ INVITE_EXPIRE_MINUTES cfg' = m).
Proof.
  intros Hlog Hreq.
  assert (Hshape : ∃ t cid,
            DateTime.add_minutes (now_expire env) (INVITE_EXPIRE_MINUTES cfg) = Some t
            ∧ req = invite_request env (Tg.id (Tg.effective_user update)) t cid).
  { destruct (decide (Tg.effective_chat_type update = "private")) as [Hp|Hp].
    2:{ rewrite (handle_email_not_private cfg env update w Hp) in Hlog. simpl in Hlog.
        rewrite <- (app_nil_r (log w)) in Hlog at 1. apply app_inv_head in Hlog.
        subst evs. apply elem_of_nil in Hreq. contradiction. }
    destruct (EMAIL_RE_match (email_of update)) eqn:Hv.
    2:{ rewrite (handle_email_invalid cfg env update w Hp Hv) in Hlog. simpl in Hlog.
        apply app_inv_head in Hlog. subst evs.
        apply elem_of_cons in Hreq as [H|H]; [discriminate|].
        apply elem_of_nil in H. contradiction. }
    assert (Hpre : ∀ tl,
              EvCreateChatInviteLink req
                ∈ get_ws_events cfg (sheet w)
                  ++ [EvRowValues 1; EvColValues (id_column (opened (sheet w)))] ++ tl ->
              EvCreateChatInviteLink req ∈ tl).
    { intros tl H. apply elem_of_app in H as [H|H].
      - unfold get_ws_events in H. destruct (Sheet.row_values 1 (sheet w)); simpl in H;
          repeat (apply elem_of_cons in H as [H|H]; [discriminate|]);
          apply elem_of_nil in H; contradiction.
      - apply elem_of_app in H as [H|H]; [|exact H].
        apply elem_of_two in H as [H|H]; discriminate. }
    destruct (handle_email_cases cfg env update w Hp Hv)
      as [[Hr E] | [Hf [[Ht E] | (t & Ht & [[Hc E] | (cid & Hc & [(e & Ha & E) | (link & Ha & E)])])]]];
      rewrite E in Hlog; cbn [snd log] in Hlog; rewrite <- ?app_assoc in Hlog;
      apply app_inv_head in Hlog; subst evs.
    - apply Hpre in Hreq. apply elem_of_cons in Hreq as [H|H]; [discriminate|].
      apply elem_of_nil in H. contradiction.
    - rewrite <- (app_nil_r [_; _]) in Hreq. apply Hpre in Hreq.
      apply elem_of_nil in Hreq. contradiction.
    - apply Hpre in Hreq. apply elem_of_cons in Hreq as [H|H]; [discriminate|].
      apply elem_of_nil in H. contradiction.
    - apply Hpre in Hreq. apply elem_of_two in Hreq as [H|H]; [|discriminate].
      injection H as ->. eauto.
    - apply Hpre in Hreq. apply elem_of_cons in Hreq as [H|H].
      + injection H as ->. eauto.
      + apply elem_of_two in H as [H|H]; discriminate. }
  destruct Hshape as (t & cid & Ht & ->). apply add_minutes_Some in Ht. subst t.
  cbn [invite_request member_limit creates_join_request expire_date name].
  repeat split.
  - apply timestamp_int_add_minutes.
  - apply load_config_default_minutes.
  - apply load_config_set_minutes.
Qed.

Lemma C6_witness :
  member_limit (mkInviteRequest (-1001234567890) 1 1700000600 false "patreon_gate_7_1700000000") = 1
  ∧ creates_join_request
      (mkInviteRequest (-1001234567890) 1 1700000600 false "patreon_gate_7_1700000000") = false
  ∧ expire_date (mkInviteRequest (-1001234567890) 1 1700000600 false "patreon_gate_7_1700000000")
    = DateTime.timestamp_int (1700000000123456 + 10 * 60 * DateTime.us_per_second)
  ∧ (0 <= 1700000000123456 -> 0 <= 10 ->
     1700000000123456 + 10 * 60 * DateTime.us_per_second < 2 ^ 34 * DateTime.us_per_second ->
     expire_date (mkInviteRequest (-1001234567890) 1 1700000600 false "patreon_gate_7_1700000000")
     = 1700000000123456 / DateTime.us_per_second + 60 * 10)
  ∧ name (mkInviteRequest (-1001234567890) 1 1700000600 false "patreon_gate_7_1700000000")
    = "patreon_gate_" +:+ Py.str 7 +:+ "_" +:+ Py.str (DateTime.time_int 1700000000654321)
  ∧ (∀ int_text (environ : gmap string string),
       environ !! "INVITE_EXPIRE_MINUTES" = None ->
       ∃ cfg', load_config int_text environ = inr cfg' ∧ INVITE_EXPIRE_MINUTES cfg' = 10)
  ∧ (∀ int_text (environ : gmap string string) v m,
       environ !! "INVITE_EXPIRE_MINUTES" = Some v -> Py.int v = Some m ->
       ∃ cfg', load_config int_text environ = inr cfg' ∧ INVITE_EXPIRE_MINUTES cfg' = m).
Proof.
  apply (C6_invite_request_constraints sample_cfg (sample_env api_ok)
           (sample_update "private" "bob@example.com" other_user) (mkWorld sample_sheet [])
           [EvOpenByKey "service-account.json" "sheet-key"; EvRowValues 1; EvRowValues 1;
            EvColValues 2;
            EvCreateChatInviteLink
              (mkInviteRequest (-1001234567890) 1 1700000600 false "patreon_gate_7_1700000000");
            EvAppendRow
              [ "2023-11-14T22:13:21+00:00"; "7"; "bob"; "Bob"; "bob@example.com";
                "https://t.me/+AbCdEf" ] (Some "RAW");
            EvReplyText (invite_text "https://t.me/+AbCdEf")]).
  - vm_compute. reflexivity.
  - do 4 apply list_elem_of_further. apply list_elem_of_here.
Defined.

(** C7, on the failing input.  On a worksheet whose first row is blank
    while a row below holds values, [get_ws] appends the header after
    the last row and the first row stays blank, so that a second call
    appends the header again: two calls leave two header rows. *)
Theorem C7_blank_first_row_two_headers :
  Sheet.row_values 1 headless_sheet = []
  ∧ (get_ws sample_cfg ;; get_ws sample_cfg) (mkWorld headless_sheet [])
    = (inr tt,
       mkWorld (headless_sheet ++ [HEADER; HEADER])
         [EvOpenByKey "service-account.json" "sheet-key"; EvRowValues 1;
          EvAppendRow HEADER None;
          EvOpenByKey "service-account.json" "sheet-key"; EvRowValues 1;
          EvAppendRow HEADER None]).
Proof. split; vm_compute; reflexivity. Qed.

(** C8. When the bot token, the group identifier or the spreadsheet
    identifier is empty, [main] raises a RuntimeError whose message
    names a variable that is empty (the first one in the order
    BOT_TOKEN, GROUP_CHAT_ID, SHEET_ID), and no application is left
    polling. *)
Theorem C8_missing_setting_is_fatal cfg :
  BOT_TOKEN cfg = "" ∨ GROUP_CHAT_ID cfg = "" ∨ SHEET_ID cfg = "" ->
  ∃ name value,
    (name, value) ∈ [("BOT_TOKEN", BOT_TOKEN cfg);
                     ("GROUP_CHAT_ID", GROUP_CHAT_ID cfg);
                     ("SHEET_ID", SHEET_ID cfg)]
    ∧ value = ""
    ∧ main cfg = inl (mkException "RuntimeError" ("Missing env var: " +:+ name)).
Proof.
  intros H. unfold main, must_env.
  destruct (BOT_TOKEN cfg) as [|c1 s1] eqn:E1.
  { exists "BOT_TOKEN", "". split; [repeat constructor | auto]. }
  destruct (GROUP_CHAT_ID cfg) as [|c2 s2] eqn:E2.
  { exists "GROUP_CHAT_ID", "". split; [repeat constructor | auto]. }
  destruct (SHEET_ID cfg) as [|c3 s3] eqn:E3.
  { exists "SHEET_ID", "". split; [repeat constructor | auto]. }
  destruct H as [H | [H | H]]; discriminate.
Qed.

Lemma C8_witness :
  ∃ name value,
    (name, value) ∈ [("BOT_TOKEN", "123456:token"); ("GROUP_CHAT_ID", ""); ("SHEET_ID", "k")]
    ∧ value = ""
    ∧ main (mkConfig "123456:token" "" "k" "service-account.json" 10)
      = inl (mkException "RuntimeError" ("Missing env var: " +:+ name)).
Proof.
  apply (C8_missing_setting_is_fatal (mkConfig "123456:token" "" "k" "service-account.json" 10)).
  right. left. reflexivity.
Defined.

(** C9. A text message handled outside a private chat ends the
    conversation at once: the handler returns END and leaves the
    world as it found it, so that nothing is replied, the worksheet
    is neither read nor written and no invite is requested, whatever
    the text is. *)
Theorem C9_not_private_ends_silently cfg env update w :
  Tg.effective_chat_type update ≠ "private" ->
  handle_email cfg env update w = (inr END, w).
Proof. apply handle_email_not_private. Qed.

Lemma C9_witness :
  handle_email sample_cfg (sample_env api_ok) (sample_update "group" "ann@example.com" sample_user)
    (mkWorld [] [])
  = (inr END, mkWorld [] []).
Proof. apply C9_not_private_ends_silently. discriminate. Defined.

(** C10. The text is stripped before it is validated and before it is
    recorded.  In a private chat, a message whose stripped text
    matches the pattern passes validation: the handler does not stay
    in ASK_EMAIL and does not send the corrective prompt, it opens the
    worksheet and runs the admission.  Every submission row it appends
    carries the stripped text in its e-mail cell and is the last row
    of the worksheet, and such a row is appended whenever the user is
    not recorded and the invite is issued. *)
Theorem C10_email_is_stripped cfg env update w :
  Tg.effective_chat_type update = "private" ->
  EMAIL_RE_match (Py.strip (Py.or_empty (Tg.message_text update))) = true ->
  ∃ r w' evs,
    handle_email cfg env update w = (r, w')
    ∧ r ≠ inr ASK_EMAIL
    ∧ log w' = log w ++ EvOpenByKey (GOOGLE_SERVICE_ACCOUNT_JSON cfg) (SHEET_ID cfg) :: evs
    ∧ (EvReplyText invalid_email_text ∉ evs)
    ∧ (∀ values, EvAppendRow values (Some "RAW") ∈ evs ->
         values !! 4%nat = Some (Py.strip (Py.or_empty (Tg.message_text update)))
         ∧ last (sheet w') = Some values)
    ∧ (∀ expire_dt link,
         ¬ recorded (opened (sheet w)) (Tg.id (Tg.effective_user update)) ->
         DateTime.add_minutes (now_expire env) (INVITE_EXPIRE_MINUTES cfg) = Some expire_dt ->
         invite_outcome cfg env (Tg.id (Tg.effective_user update)) expire_dt = inr link ->
         ∃ values, EvAppendRow values (Some "RAW") ∈ evs).
Proof.
  intros Hp Hv. fold (email_of update) in *.
  assert (Hhead : ∀ tl, log w ++ get_ws_events cfg (sheet w) ++ tl
            = log w ++ EvOpenByKey (GOOGLE_SERVICE_ACCOUNT_JSON cfg) (SHEET_ID cfg)
                :: (EvRowValues 1
                    :: match Sheet.row_values 1 (sheet w) with
                       | [] => [EvAppendRow HEADER None]
                       | _ => []
                       end ++ tl)).
  { intros tl. unfold get_ws_events. reflexivity. }
  assert (Hpre : ∀ (x : Event) tl,
            x ∈ EvRowValues 1
                :: match Sheet.row_values 1 (sheet w) with
                   | [] => [EvAppendRow HEADER None]
                   | _ => []
                   end ++ [EvRowValues 1; EvColValues (id_column (opened (sheet w)))] ++ tl ->
            x = EvRowValues 1 ∨ x = EvAppendRow HEADER None
            ∨ x = EvColValues (id_column (opened (sheet w))) ∨ x ∈ tl).
  { intros x tl H. apply elem_of_cons in H as [H|H]; [auto|].
    apply elem_of_app in H as [H|H].
    - destruct (Sheet.row_values 1 (sheet w)).
      + apply elem_of_cons in H as [H|H]; [auto|]. apply elem_of_nil in H. contradiction.
      + apply elem_of_nil in H. contradiction.
    - apply elem_of_app in H as [H|H]; [|auto].
      apply elem_of_two in H as [H|H]; auto. }
  destruct (handle_email_cases cfg env update w Hp Hv)
    as [[Hr E] | [Hf [[Ht E] | (t & Ht & [[Hc E] | (cid & Hc & [(e & Ha & E) | (link & Ha & E)])])]]];
    rewrite E; eexists _, _, _;
    (split; [reflexivity|]); (split; [discriminate|]);
    cbn [sheet log]; rewrite <- ?app_assoc;
    (split; [rewrite Hhead; reflexivity|]).
  - split; [|split].
    + intros H. apply Hpre in H as [H|[H|[H|H]]]; try discriminate.
      apply elem_of_cons in H as [H|H]; [discriminate | apply elem_of_nil in H; contradiction].
    + intros values H. apply Hpre in H as [H|[H|[H|H]]]; try discriminate.
      apply elem_of_cons in H as [H|H]; [discriminate | apply elem_of_nil in H; contradiction].
    + intros t link Hf. contradiction.
  - split; [|split].
    + intros H. rewrite <- (app_nil_r [_; _]) in H.
      apply Hpre in H as [H|[H|[H|H]]]; try discriminate.
      apply elem_of_nil in H; contradiction.
    + intros values H. rewrite <- (app_nil_r [_; _]) in H.
      apply Hpre in H as [H|[H|[H|H]]]; try discriminate.
      apply elem_of_nil in H; contradiction.
    + intros t link _ Ht'. congruence.
  - split; [|split].
    + intros H. apply Hpre in H as [H|[H|[H|H]]]; try discriminate.
      apply elem_of_cons in H as [H|H]; [discriminate | apply elem_of_nil in H; contradiction].
    + intros values H. apply Hpre in H as [H|[H|[H|H]]]; try discriminate.
      apply elem_of_cons in H as [H|H]; [discriminate | apply elem_of_nil in H; contradiction].
    + intros t' link _ Ht' Ho. unfold invite_outcome in Ho. rewrite Hc in Ho. discriminate.
  - split; [|split].
    + intros H. apply Hpre in H as [H|[H|[H|H]]]; try discriminate.
      apply elem_of_two in H as [H|H]; discriminate.
    + intros values H. apply Hpre in H as [H|[H|[H|H]]]; try discriminate.
      apply elem_of_two in H as [H|H]; discriminate.
    + intros t' link _ Ht' Ho. unfold invite_outcome in Ho. rewrite Hc in Ho.
      assert (t' = t) as -> by congruence. congruence.
  - split; [|split].
    + intros H. apply Hpre in H as [H|[H|[H|H]]]; try discriminate.
      repeat (apply elem_of_cons in H as [H|H]; [discriminate|]).
      apply elem_of_nil in H; contradiction.
    + intros values H. apply Hpre in H as [H|[H|[H|H]]]; try discriminate.
      apply elem_of_cons in H as [H|H]; [discriminate|].
      apply elem_of_cons in H as [H|H].
      * injection H as ->. split; [reflexivity|]. unfold Sheet.append_row. apply last_snoc.
      * apply elem_of_cons in H as [H|H]; [discriminate | apply elem_of_nil in H; contradiction].
    + intros t' link' _ _ _. eexists.
      apply list_elem_of_further, elem_of_app. right. apply elem_of_app. right.
      apply list_elem_of_further, list_elem_of_here.
Qed.

Lemma C10_witness :
  ∃ r w' evs,
    handle_email sample_cfg (sample_env api_ok)
      (sample_update "private" "  bob@example.com " other_user) (mkWorld sample_sheet [])
    = (r, w')
    ∧ r ≠ inr ASK_EMAIL
    ∧ log w' = [] ++ EvOpenByKey "service-account.json" "sheet-key" :: evs
    ∧ (EvReplyText invalid_email_text ∉ evs)
    ∧ (∀ values, EvAppendRow values (Some "RAW") ∈ evs ->
         values !! 4%nat = Some (Py.strip (Py.or_empty (Some "  bob@example.com ")))
         ∧ last (sheet w') = Some values)
    ∧ (∀ expire_dt link,
         ¬ recorded (opened sample_sheet) 7 ->
         DateTime.add_minutes 1700000000123456 10 = Some expire_dt ->
         invite_outcome sample_cfg (sample_env api_ok) 7 expire_dt = inr link ->
         ∃ values, EvAppendRow values (Some "RAW") ∈ evs).
Proof.
  apply (C10_email_is_stripped sample_cfg (sample_env api_ok)
           (sample_update "private" "  bob@example.com " other_user)
           (mkWorld sample_sheet [])).
  - reflexivity.
  - vm_compute. reflexivity.
Defined.

(** ** Further properties of the code *)

(** *** Blank cells and blank rows *)

Lemma drop_blank_split l :
  ∃ bs, l = bs ++ Sheet.drop_blank l ∧ Forall (λ c, Sheet.blank c = true) bs.
Proof.
  induction l as [|c l (bs & IH & Hbs)]; simpl.
  - exists []. split; [reflexivity | constructor].
  - destruct (Sheet.blank c) eqn:E.
    + exists (c :: bs). split; [simpl; congruence | constructor; assumption].
    + exists []. split; [reflexivity | constructor].
Qed.

Lemma drop_blank_app_blanks bs l :
  Forall (λ c, Sheet.blank c = true) bs ->
  Sheet.drop_blank (bs ++ l) = Sheet.drop_blank l.
Proof. induction 1 as [|c bs Hc _ IH]; simpl; [reflexivity|]. rewrite Hc. exact IH. Qed.

Lemma trim_split l :
  ∃ bs, l = Sheet.trim l ++ bs ∧ Forall (λ c, Sheet.blank c = true) bs.
Proof.
  destruct (drop_blank_split (reverse l)) as (bs & H & Hbs).
  exists (reverse bs). split.
  - unfold Sheet.trim. rewrite <- reverse_app, <- H. symmetry. apply reverse_involutive.
  - apply Forall_reverse. exact Hbs.
Qed.

Lemma trim_app_blanks l bs :
  Forall (λ c, Sheet.blank c = true) bs -> Sheet.trim (l ++ bs) = Sheet.trim l.
Proof.
  intros H. unfold Sheet.trim. rewrite reverse_app, drop_blank_app_blanks; [reflexivity|].
  apply Forall_reverse. exact H.
Qed.

Lemma blank_true c : Sheet.blank c = true ↔ c = "".
Proof. unfold Sheet.blank. apply bool_decide_eq_true. Qed.

(** A value that is not blank stands below the first cell of a column
    as trimmed exactly when it stands there before trimming. *)
Lemma elem_drop1_trim l x :
  x ≠ "" -> x ∈ drop 1 (Sheet.trim l) ↔ x ∈ drop 1 l.
Proof.
  intros Hx. destruct (trim_split l) as (bs & H & Hbs).
  assert (Hnb : x ∉ bs).
  { intros Hin. rewrite Forall_forall in Hbs. apply Hbs, blank_true in Hin. contradiction. }
  rewrite H at 2. destruct (Sheet.trim l) as [|a t].
  - change (drop 1 ([] ++ bs)) with (drop 1 bs).
    split; [intros Hin; apply elem_of_nil in Hin; contradiction|].
    intros Hin. exfalso. apply Hnb. destruct bs as [|b bs]; [exact Hin|].
    apply list_elem_of_further. exact Hin.
  - change (drop 1 ((a :: t) ++ bs)) with (t ++ bs).
    change (drop 1 (a :: t)) with t.
    rewrite elem_of_app. split; [auto|]. intros [Hin|Hin]; [exact Hin | contradiction].
Qed.

Lemma drop_blank_rows_split rows :
  ∃ bs, rows = bs ++ Sheet.drop_blank_rows rows
        ∧ Forall (λ r, Sheet.blank_row r = true) bs.
Proof.
  induction rows as [|r rows (bs & IH & Hbs)]; simpl.
  - exists []. split; [reflexivity | constructor].
  - destruct (Sheet.blank_row r) eqn:E.
    + exists (r :: bs). split; [simpl; congruence | constructor; assumption].
    + exists []. split; [reflexivity | constructor].
Qed.

(** A worksheet is its used rows followed by blank rows. *)
Lemma used_rows_split ws :
  ∃ bs, ws = Sheet.used_rows ws ++ bs ∧ Forall (λ r, Sheet.blank_row r = true) bs.
Proof.
  destruct (drop_blank_rows_split (reverse ws)) as (bs & H & Hbs).
  exists (reverse bs). split.
  - unfold Sheet.used_rows. rewrite <- reverse_app, <- H. symmetry.
    apply reverse_involutive.
  - apply Forall_reverse. exact Hbs.
Qed.

Lemma used_rows_snoc rows r :
  Sheet.blank_row r = false -> Sheet.used_rows (rows ++ [r]) = rows ++ [r].
Proof.
  intros H. unfold Sheet.used_rows. rewrite reverse_app.
  change (reverse [r] ++ reverse rows) with (r :: reverse rows).
  cbn [Sheet.drop_blank_rows]. rewrite H, reverse_cons, reverse_involutive. reflexivity.
Qed.

Lemma blank_row_cell c r : Sheet.blank_row r = true -> Sheet.blank (cell c r) = true.
Proof.
  unfold Sheet.blank_row, cell. intros H.
  destruct (r !! (c - 1)%nat) as [x|] eqn:E; simpl; [|reflexivity].
  rewrite forallb_forall in H. apply H, list_elem_of_In.
  eapply list_elem_of_lookup_2. exact E.
Qed.

Lemma blank_row_trim r : Sheet.blank_row r = true -> Sheet.trim r = [].
Proof.
  intros H. rewrite <- (app_nil_l r), trim_app_blanks; [reflexivity|].
  apply Forall_forall. intros x Hx. unfold Sheet.blank_row in H.
  rewrite forallb_forall in H. apply H, list_elem_of_In. exact Hx.
Qed.

Lemma col_values_cells c ws : Sheet.col_values c ws = Sheet.trim (cell c <$> ws).
Proof. reflexivity. Qed.

(** The blank rows at the end of a worksheet do not show in a column. *)
Lemma col_values_used_rows c ws :
  Sheet.col_values c (Sheet.used_rows ws) = Sheet.col_values c ws.
Proof.
  destruct (used_rows_split ws) as (bs & H & Hbs).
  rewrite !col_values_cells. rewrite H at 2. rewrite fmap_app, trim_app_blanks; [reflexivity|].
  apply Forall_fmap. eapply Forall_impl; [exact Hbs|]. intros r Hr.
  apply blank_row_cell. exact Hr.
Qed.

(** The first row of a worksheet that has used rows is the first of them. *)
Lemma row_values_1_used_rows ws :
  Sheet.row_values 1 (Sheet.used_rows ws) = Sheet.row_values 1 ws.
Proof.
  destruct (used_rows_split ws) as (bs & H & Hbs).
  unfold Sheet.row_values. rewrite H at 2. simpl.
  destruct (Sheet.used_rows ws) as [|r U] eqn:E; [|reflexivity]. simpl.
  destruct Hbs as [|b bs Hb _]; [reflexivity|]. simpl.
  symmetry. apply blank_row_trim. exact Hb.
Qed.

Lemma row_values_1_app ws rows :
  ws ≠ [] -> Sheet.row_values 1 (ws ++ rows) = Sheet.row_values 1 ws.
Proof. intros H. destruct ws; [contradiction | reflexivity]. Qed.

Lemma row_values_1_append values ws :
  Sheet.used_rows ws ≠ [] ->
  Sheet.row_values 1 (Sheet.append_row values ws) = Sheet.row_values 1 ws.
Proof.
  intros H. unfold Sheet.append_row.
  rewrite (row_values_1_app _ _ H). apply row_values_1_used_rows.
Qed.

(** *** The decimal rendering of an integer *)

Lemma pretty_N_go_nonempty x s : s ≠ "" -> pretty_N_go x s ≠ "".
Proof.
  revert s. induction (N.lt_wf_0 x) as [x _ IH]; intros s Hs.
  destruct (decide (x = 0)%N) as [->|Hx]; [rewrite pretty_N_go_0; exact Hs|].
  rewrite pretty_N_go_step by lia. apply IH; [apply N.div_lt; lia | discriminate].
Qed.

Lemma str_nonempty v : Py.str v ≠ "".
Proof.
  unfold Py.str, pretty, pretty_Z. destruct v as [|p|p]; [discriminate| |discriminate].
  unfold pretty, pretty_positive, pretty, pretty_N.
  destruct (decide (N.pos p = 0)%N); [discriminate|].
  rewrite pretty_N_go_step by lia. apply pretty_N_go_nonempty. discriminate.
Qed.

(** The characters of a rendering are digits and the minus sign. *)
Lemma pretty_N_go_chars (P : ascii -> Prop) x s :
  (∀ d, (d < 10)%N -> P (pretty_N_char d)) ->
  Forall P (list_ascii_of_string s) ->
  Forall P (list_ascii_of_string (pretty_N_go x s)).
Proof.
  intros Hd. revert s. induction (N.lt_wf_0 x) as [x _ IH]; intros s Hs.
  destruct (decide (x = 0)%N) as [->|Hx]; [rewrite pretty_N_go_0; exact Hs|].
  rewrite pretty_N_go_step by lia. apply IH; [apply N.div_lt; lia|].
  simpl. constructor; [|exact Hs]. apply Hd. apply N.mod_lt. discriminate.
Qed.

Lemma str_no_underscore v :
  Forall (λ c, c ≠ "_"%char) (list_ascii_of_string (Py.str v)).
Proof.
  assert (Hd : ∀ d, (d < 10)%N -> pretty_N_char d ≠ "_"%char).
  { intros d _. unfold pretty_N_char. repeat case_match; discriminate. }
  assert (Hn : ∀ n, Forall (λ c, c ≠ "_"%char) (list_ascii_of_string (pretty_N n))).
  { intros n. unfold pretty_N. destruct (decide (n = 0)%N).
    - repeat constructor. discriminate.
    - apply pretty_N_go_chars; [exact Hd | constructor]. }
  unfold Py.str, pretty, pretty_Z. destruct v as [|p|p].
  - repeat constructor. discriminate.
  - apply Hn.
  - simpl. constructor; [discriminate | apply Hn].
Qed.

(** Two strings free of underscores are cut off by the first underscore. *)
Lemma underscore_split a a' b b' :
  Forall (λ c, c ≠ "_"%char) (list_ascii_of_string a) ->
  Forall (λ c, c ≠ "_"%char) (list_ascii_of_string a') ->
  a +:+ "_" +:+ b = a' +:+ "_" +:+ b' -> a = a' ∧ b = b'.
Proof.
  revert a'. induction a as [|c a IH]; intros [|c' a'] Ha Ha' H; simpl in *.
  - injection H as H. auto.
  - injection H as Hc _. inversion Ha'. congruence.
  - injection H as Hc _. inversion Ha. congruence.
  - injection H as Hc H. inversion Ha. inversion Ha'. subst.
    destruct (IH a') as [Ea Eb]; auto. subst. auto.
Qed.

(** *** Looking a submission up after it is written *)

Lemma id_column_append values ws :
  Sheet.used_rows ws ≠ [] -> id_column (Sheet.append_row values ws) = id_column ws.
Proof. intros H. unfold id_column. rewrite (row_values_1_append _ _ H). reflexivity. Qed.

Lemma recorded_append values ws v :
  Sheet.used_rows ws ≠ [] ->
  recorded (Sheet.append_row values ws) v
  ↔ recorded ws v ∨ cell (id_column ws) values = Py.str v.
Proof.
  intros HU. rewrite !recorded_list, (id_column_append _ _ HU).
  set (c := id_column ws).
  rewrite <- (col_values_used_rows c ws). unfold Sheet.append_row.
  rewrite !col_values_cells, fmap_app.
  rewrite !(elem_drop1_trim _ _ (str_nonempty v)).
  destruct (Sheet.used_rows ws) as [|r U]; [contradiction|].
  change (drop 1 ((cell c <$> r :: U) ++ (cell c <$> [values])))
    with ((cell c <$> U) ++ [cell c values]).
  change (drop 1 (cell c <$> r :: U)) with (cell c <$> U).
  rewrite elem_of_app, list_elem_of_singleton. intuition congruence.
Qed.

(** What [get_ws] leaves always has a used row. *)
Lemma opened_used_rows ws : Sheet.used_rows (opened ws) ≠ [].
Proof.
  unfold opened. destruct (Sheet.row_values 1 ws) as [|x l] eqn:E.
  - unfold Sheet.append_row. rewrite used_rows_snoc by reflexivity.
    intros H. apply app_eq_nil in H as [_ H]. discriminate.
  - intros H. rewrite <- row_values_1_used_rows, H in E. discriminate.
Qed.

Lemma row_values_1_blank_sheet ws : Sheet.used_rows ws = [] -> Sheet.row_values 1 ws = [].
Proof. intros H. rewrite <- row_values_1_used_rows, H. reflexivity. Qed.

Lemma opened_first_row ws :
  Sheet.row_values 1 ws ≠ [] ∨ Sheet.used_rows ws = [] ->
  Sheet.row_values 1 (opened ws) ≠ [].
Proof.
  intros [H|H].
  - rewrite (opened_header _ H). exact H.
  - unfold opened. rewrite (row_values_1_blank_sheet _ H).
    unfold Sheet.append_row. rewrite H. discriminate.
Qed.

Lemma get_ws_times_header cfg n w :
  Sheet.row_values 1 (sheet w) ≠ [] ->
  get_ws_times cfg n w
  = (inr tt,
     mkWorld (sheet w)
       (log w ++ List.concat (replicate n
          [EvOpenByKey (GOOGLE_SERVICE_ACCOUNT_JSON cfg) (SHEET_ID cfg); EvRowValues 1]))).
Proof.
  revert w. induction n as [|n IH]; intros w H; simpl.
  - unfold ret. rewrite app_nil_r. destruct w; reflexivity.
  - rewrite bind_run, get_ws_run, IH; cbn [sheet log]; rewrite (opened_header _ H);
      [|exact H].
    unfold get_ws_events. destruct (Sheet.row_values 1 (sheet w)); [contradiction|].
    rewrite app_nil_r, <- !app_assoc. reflexivity.
Qed.

(** X1. On a worksheet that holds no value, or whose first row holds
    one, any number of calls of [get_ws] leaves what one call leaves:
    the worksheet itself when it had a first row, the header alone
    when it was empty.  Only the first call may write; the others open
    the sheet and read its first row.  Afterwards the first row is not
    empty. *)
Theorem X1_get_ws_repeated cfg w n :
  Sheet.row_values 1 (sheet w) ≠ [] ∨ Sheet.used_rows (sheet w) = [] ->
  get_ws_times cfg (S n) w
  = (inr tt,
     mkWorld (opened (sheet w))
       (log w ++ get_ws_events cfg (sheet w)
        ++ List.concat (replicate n
             [EvOpenByKey (GOOGLE_SERVICE_ACCOUNT_JSON cfg) (SHEET_ID cfg); EvRowValues 1])))
  ∧ Sheet.row_values 1 (opened (sheet w)) ≠ []
  ∧ (Sheet.row_values 1 (sheet w) ≠ [] -> opened (sheet w) = sheet w)
  ∧ (Sheet.used_rows (sheet w) = [] -> opened (sheet w) = [HEADER]).
Proof.
  intros H. split; [|split; [exact (opened_first_row _ H) | split; [apply opened_header|]]].
  - cbn [get_ws_times]. rewrite bind_run, get_ws_run, get_ws_times_header.
    + cbn [sheet log]. rewrite <- app_assoc. reflexivity.
    + exact (opened_first_row _ H).
  - intros HU. unfold opened. rewrite (row_values_1_blank_sheet _ HU).
    unfold Sheet.append_row. rewrite HU. reflexivity.
Qed.

Lemma X1_witness :
  get_ws_times sample_cfg 3 (mkWorld [] [])
  = (inr tt,
     mkWorld (opened [])
       ([] ++ get_ws_events sample_cfg []
        ++ List.concat (replicate 2 [EvOpenByKey "service-account.json" "sheet-key"; EvRowValues 1])))
  ∧ Sheet.row_values 1 (opened []) ≠ []
  ∧ (Sheet.row_values 1 [] ≠ [] -> opened [] = [])
  ∧ (Sheet.used_rows [] = [] -> opened [] = [HEADER]).
Proof.
  apply (X1_get_ws_repeated sample_cfg (mkWorld [] []) 2). right. reflexivity.
Defined.

(** X2. On a worksheet whose first row is blank while a row below
    holds a value, every call of [get_ws] appends one more header row
    after the last used row, and the first row stays blank. *)
Theorem X2_get_ws_blank_first_row cfg w n :
  Sheet.row_values 1 (sheet w) = [] ->
  Sheet.used_rows (sheet w) ≠ [] ->
  sheet (snd (get_ws_times cfg (S n) w))
  = Sheet.used_rows (sheet w) ++ replicate (S n) HEADER
  ∧ Sheet.row_values 1 (sheet (snd (get_ws_times cfg (S n) w))) = [].
Proof.
  revert w. induction n as [|n IH]; intros w H1 HU.
  - cbn [get_ws_times]. rewrite bind_run, get_ws_run. cbn.
    unfold opened. rewrite H1. split; [reflexivity|].
    rewrite (row_values_1_append _ _ HU). exact H1.
  - change (get_ws_times cfg (S (S n))) with (get_ws cfg ;; get_ws_times cfg (S n)).
    rewrite bind_run, get_ws_run.
    set (w1 := mkWorld (opened (sheet w)) (log w ++ get_ws_events cfg (sheet w))).
    assert (Ho : opened (sheet w) = Sheet.used_rows (sheet w) ++ [HEADER]).
    { unfold opened. rewrite H1. reflexivity. }
    assert (H1' : Sheet.row_values 1 (sheet w1) = []).
    { cbn [w1 sheet]. rewrite Ho, (row_values_1_app _ _ HU), row_values_1_used_rows.
      exact H1. }
    assert (HU' : Sheet.used_rows (sheet w1) = Sheet.used_rows (sheet w) ++ [HEADER]).
    { cbn [w1 sheet]. rewrite Ho. apply used_rows_snoc. reflexivity. }
    destruct (IH w1 H1') as [E1 E2].
    { rewrite HU'. intros E. apply app_eq_nil in E as [_ E]. discriminate. }
    split; [|exact E2]. rewrite E1, HU', <- app_assoc. reflexivity.
Qed.

Lemma X2_witness :
  sheet (snd (get_ws_times sample_cfg 3 (mkWorld headless_sheet [])))
  = Sheet.used_rows headless_sheet ++ replicate 3 HEADER
  ∧ Sheet.row_values 1 (sheet (snd (get_ws_times sample_cfg 3 (mkWorld headless_sheet []))))
    = [].
Proof.
  apply (X2_get_ws_blank_first_row sample_cfg (mkWorld headless_sheet []) 2).
  - reflexivity.
  - vm_compute. discriminate.
Defined.

Lemma trim_length l : (List.length (Sheet.trim l) ≤ List.length l)%nat.
Proof.
  destruct (trim_split l) as (bs & H & _). rewrite H at 2. rewrite length_app. lia.
Qed.

(** X3. On a worksheet with at most one used row (an empty one, or one
    that holds only its first row) the duplicate check answers false
    for every user. *)
Theorem X3_nobody_recorded_on_short_sheet uid w :
  (List.length (Sheet.used_rows (sheet w)) ≤ 1)%nat ->
  fst (user_already_submitted uid w) = inr false.
Proof.
  intros H. rewrite user_already_submitted_run. cbn [fst]. f_equal.
  apply bool_decide_eq_false. rewrite elem_of_list_to_set.
  rewrite <- col_values_used_rows, col_values_cells.
  assert (Hl : (List.length (Sheet.trim (cell (id_column (sheet w))
                               <$> Sheet.used_rows (sheet w))) ≤ 1)%nat).
  { etransitivity; [apply trim_length|]. rewrite length_fmap. exact H. }
  destruct (Sheet.trim _) as [|a [|b t]]; simpl in *; [| |lia];
    intros Hin; apply elem_of_nil in Hin; contradiction.
Qed.

Lemma X3_witness :
  fst (user_already_submitted 42 (mkWorld [HEADER; []; [""]] [])) = inr false.
Proof.
  apply (X3_nobody_recorded_on_short_sheet 42 (mkWorld [HEADER; []; [""]] [])).
  vm_compute. lia.
Defined.

Lemma append_then_check_run env user email link v w :
  (append_submission env user email link ;; user_already_submitted v) w
  = user_already_submitted v
      (mkWorld (Sheet.append_row (submission_row env user email link) (sheet w))
               (log w ++ [EvAppendRow (submission_row env user email link) (Some "RAW")])).
Proof. rewrite bind_run, append_submission_run. reflexivity. Qed.

Lemma check_true_iff v w : fst (user_already_submitted v w) = inr true ↔ recorded (sheet w) v.
Proof.
  rewrite user_already_submitted_run. cbn [fst]. rewrite <- recorded_iff.
  split; [intros [= H]; exact H | intros ->; reflexivity].
Qed.

Lemma check_false_iff v w :
  fst (user_already_submitted v w) = inr false ↔ ¬ recorded (sheet w) v.
Proof.
  rewrite user_already_submitted_run. cbn [fst]. rewrite <- recorded_iff.
  destruct (bool_decide _); split; intros H;
    first [discriminate | reflexivity | (intros H'; discriminate)
           | (exfalso; apply H; reflexivity)].
Qed.

(** X4. Where the duplicate check reads column 2 (the header names
    telegram_user_id there, or does not name it at all) and the
    worksheet has a used row, the check that follows
    [append_submission] answers true for a user exactly when it
    answered true before or the user is the one just written: the new
    submission is found, and nobody else's answer changes. *)
Theorem X4_submission_is_found_in_column_2 env user email link v w :
  Sheet.used_rows (sheet w) ≠ [] ->
  id_column (sheet w) = 2%nat ->
  fst ((append_submission env user email link ;; user_already_submitted v) w) = inr true
  ↔ fst (user_already_submitted v w) = inr true ∨ v = Tg.id user.
Proof.
  intros HU Hc. rewrite append_then_check_run, !check_true_iff. cbn [sheet].
  rewrite (recorded_append _ _ _ HU), Hc. apply or_iff_compat_l.
  change (cell 2 (submission_row env user email link)) with (Py.str (Tg.id user)).
  split; [intros H; symmetry; exact (pretty_Z_inj _ _ H) | intros ->; reflexivity].
Qed.

Lemma X4_witness :
  fst ((append_submission (sample_env api_ok) other_user "bob@example.com" "https://t.me/+x" ;;
        user_already_submitted 7) (mkWorld sample_sheet [])) = inr true
  ↔ fst (user_already_submitted 7 (mkWorld sample_sheet [])) = inr true ∨ 7 = Tg.id other_user.
Proof.
  apply (X4_submission_is_found_in_column_2 (sample_env api_ok) other_user
           "bob@example.com" "https://t.me/+x" 7 (mkWorld sample_sheet [])).
  - vm_compute. discriminate.
  - reflexivity.
Defined.

(** X5. The row is written by position and read by header name: on a
    worksheet with a used row, a user who was not recorded stays
    unrecorded after [append_submission] whenever the cell the row
    holds in the column the check reads is not the user's id.  With a
    header that names telegram_user_id in another column than the
    second, the check therefore does not see the submission. *)
Theorem X5_submission_missed_in_other_column env user email link v w :
  Sheet.used_rows (sheet w) ≠ [] ->
  cell (id_column (sheet w)) (submission_row env user email link) ≠ Py.str v ->
  fst (user_already_submitted v w) = inr false ->
  fst ((append_submission env user email link ;; user_already_submitted v) w) = inr false.
Proof.
  intros HU Hc H. rewrite append_then_check_run. rewrite check_false_iff in *.
  cbn [sheet]. rewrite (recorded_append _ _ _ HU). tauto.
Qed.

Lemma X5_witness :
  fst ((append_submission (sample_env api_ok) other_user "bob@example.com" "https://t.me/+x" ;;
        user_already_submitted 7)
         (mkWorld [["telegram_user_id"; "patreon_email"]; ["42"; "ann@example.com"]] []))
  = inr false.
Proof.
  apply (X5_submission_missed_in_other_column (sample_env api_ok) other_user
           "bob@example.com" "https://t.me/+x" 7
           (mkWorld [["telegram_user_id"; "patreon_email"]; ["42"; "ann@example.com"]] [])).
  - vm_compute. discriminate.
  - vm_compute. discriminate.
  - vm_compute. reflexivity.
Defined.

Lemma submission_row_not_blank env user email link :
  Sheet.blank_row (submission_row env user email link) = false.
Proof.
  destruct (Sheet.blank_row _) eqn:E; [|reflexivity].
  apply (blank_row_cell 2), blank_true in E. exfalso. exact (str_nonempty _ E).
Qed.

(** X6. After a submission has been accepted on a worksheet where the
    duplicate check reads column 2, the next valid submission of the
    same user in a private chat, whatever its e-mail, the clock and
    the configuration, is rejected: the handler replies with the
    rejection and returns END without requesting an invite or writing
    a submission row.  Where the worksheet was empty or had its first
    row, the rejected run leaves it as it was. *)
Theorem X6_second_submission_is_rejected
    cfg env update w expire_dt link cfg' env' update' :
  Tg.effective_chat_type update = "private" ->
  EMAIL_RE_match (email_of update) = true ->
  ¬ recorded (opened (sheet w)) (Tg.id (Tg.effective_user update)) ->
  DateTime.add_minutes (now_expire env) (INVITE_EXPIRE_MINUTES cfg) = Some expire_dt ->
  invite_outcome cfg env (Tg.id (Tg.effective_user update)) expire_dt = inr link ->
  id_column (opened (sheet w)) = 2%nat ->
  Tg.effective_chat_type update' = "private" ->
  EMAIL_RE_match (email_of update') = true ->
  Tg.id (Tg.effective_user update') = Tg.id (Tg.effective_user update) ->
  ∃ evs,
    handle_email cfg' env' update' (snd (handle_email cfg env update w))
    = (inr END,
       mkWorld (opened (sheet (snd (handle_email cfg env update w))))
               (log (snd (handle_email cfg env update w)) ++ evs
                ++ [EvReplyText already_submitted_text]))
    ∧ (∀ req, EvCreateChatInviteLink req ∉ evs)
    ∧ (∀ values, EvAppendRow values (Some "RAW") ∉ evs)
    ∧ (Sheet.row_values 1 (sheet w) ≠ [] ∨ Sheet.used_rows (sheet w) = [] ->
       opened (sheet (snd (handle_email cfg env update w)))
       = sheet (snd (handle_email cfg env update w))).
Proof.
  intros Hp Hv Hf Ht Ho Hc Hp' Hv' Hid.
  apply invite_outcome_cases in Ho as [[_ He] | (cid & Hcid & Ha)]; [discriminate|].
  rewrite (handle_email_success cfg env update w Hp Hv Hf _ Ht _ Hcid _ Ha). cbn [snd sheet log].
  set (row := submission_row env (Tg.effective_user update) (email_of update) link).
  set (s1 := Sheet.append_row row (opened (sheet w))).
  set (log1 := _ ++ _).
  assert (HU : Sheet.used_rows s1 ≠ []).
  { unfold s1, Sheet.append_row. rewrite used_rows_snoc by apply submission_row_not_blank.
    intros E. apply app_eq_nil in E as [_ E]. discriminate. }
  assert (Hr1 : recorded s1 (Tg.id (Tg.effective_user update))).
  { apply recorded_append; [apply opened_used_rows|]. right. rewrite Hc. reflexivity. }
  assert (Hr : recorded (opened s1) (Tg.id (Tg.effective_user update'))).
  { rewrite Hid. unfold opened. destruct (Sheet.row_values 1 s1); [|exact Hr1].
    apply recorded_append; auto. }
  exists (get_ws_events cfg' s1 ++ [EvRowValues 1; EvColValues (id_column (opened s1))]).
  split; [|split; [|split]].
  - rewrite (handle_email_duplicate cfg' env' update' (mkWorld s1 log1) Hp' Hv' Hr).
    cbn [sheet log]. rewrite <- !app_assoc. reflexivity.
  - intros req H. apply elem_of_app in H as [H|H].
    + unfold get_ws_events in H. destruct (Sheet.row_values 1 s1); simpl in H;
        repeat (apply elem_of_cons in H as [H|H]; [discriminate|]);
        apply elem_of_nil in H; contradiction.
    + apply elem_of_two in H as [H|H]; discriminate.
  - intros values H. apply elem_of_app in H as [H|H].
    + apply get_ws_events_append in H as (_ & H & _). discriminate.
    + apply elem_of_two in H as [H|H]; discriminate.
  - intros Hg. apply opened_header. unfold s1.
    rewrite (row_values_1_append _ _ (opened_used_rows _)).
    exact (opened_first_row _ Hg).
Qed.

Lemma X6_witness :
  ∃ evs,
    handle_email sample_cfg (sample_env api_forbidden)
      (sample_update "private" "robert@example.org" other_user)
      (snd (handle_email sample_cfg (sample_env api_ok)
              (sample_update "private" "bob@example.com" other_user) (mkWorld [] [])))
    = (inr END,
       mkWorld (opened (sheet (snd (handle_email sample_cfg (sample_env api_ok)
                  (sample_update "private" "bob@example.com" other_user) (mkWorld [] [])))))
               (log (snd (handle_email sample_cfg (sample_env api_ok)
                  (sample_update "private" "bob@example.com" other_user) (mkWorld [] [])))
                ++ evs ++ [EvReplyText already_submitted_text]))
    ∧ (∀ req, EvCreateChatInviteLink req ∉ evs)
    ∧ (∀ values, EvAppendRow values (Some "RAW") ∉ evs)
    ∧ (Sheet.row_values 1 [] ≠ [] ∨ Sheet.used_rows [] = [] ->
       opened (sheet (snd (handle_email sample_cfg (sample_env api_ok)
                  (sample_update "private" "bob@example.com" other_user) (mkWorld [] []))))
       = sheet (snd (handle_email sample_cfg (sample_env api_ok)
                  (sample_update "private" "bob@example.com" other_user) (mkWorld [] [])))).
Proof.
  apply (X6_second_submission_is_rejected sample_cfg (sample_env api_ok)
           (sample_update "private" "bob@example.com" other_user) (mkWorld [] [])
           1700000600123456 "https://t.me/+AbCdEf"
           sample_cfg (sample_env api_forbidden)
           (sample_update "private" "robert@example.org" other_user)).
  - reflexivity.
  - vm_compute. reflexivity.
  - apply not_recorded_check. vm_compute. reflexivity.
  - vm_compute. reflexivity.
  - vm_compute. reflexivity.
  - reflexivity.
  - reflexivity.
  - vm_compute. reflexivity.
  - reflexivity.
Defined.

(** *** Every path of [handle_email] at once *)

Lemma handle_email_paths cfg env update w :
  let uid := Tg.id (Tg.effective_user update) in
  let ws1 := opened (sheet w) in
  let log1 := log w ++ get_ws_events cfg (sheet w)
              ++ [EvRowValues 1; EvColValues (id_column (opened (sheet w)))] in
  (Tg.effective_chat_type update ≠ "private"
   ∧ handle_email cfg env update w = (inr END, w))
  ∨ (Tg.effective_chat_type update = "private"
     ∧ ((EMAIL_RE_match (email_of update) = false
         ∧ handle_email cfg env update w
           = (inr ASK_EMAIL,
              mkWorld (sheet w) (log w ++ [EvReplyText invalid_email_text])))
        ∨ (EMAIL_RE_match (email_of update) = true
           ∧ ((recorded ws1 uid
               ∧ handle_email cfg env update w
                 = (inr END, mkWorld ws1 (log1 ++ [EvReplyText already_submitted_text])))
              ∨ (¬ recorded ws1 uid
                 ∧ ((DateTime.add_minutes (now_expire env) (INVITE_EXPIRE_MINUTES cfg) = None
                     ∧ handle_email cfg env update w
                       = (inl (mkException "OverflowError" (overflow_text env)),
                          mkWorld ws1 log1))
                    ∨ ∃ t, DateTime.add_minutes (now_expire env) (INVITE_EXPIRE_MINUTES cfg)
                           = Some t
                       ∧ ((Py.int (GROUP_CHAT_ID cfg) = None
                           ∧ handle_email cfg env update w
                             = (inr END,
                                mkWorld ws1 (log1 ++ [EvReplyText (invite_failed_text
                                  (mkException "ValueError"
                                     (int_error_text env (GROUP_CHAT_ID cfg))))])))
                          ∨ ∃ cid, Py.int (GROUP_CHAT_ID cfg) = Some cid
                             ∧ ((∃ e, bot_api env (invite_request env uid t cid) = inl e
                                  ∧ handle_email cfg env update w
                                    = (inr END,
                                       mkWorld ws1
                                         (log1 ++ [EvCreateChatInviteLink
                                                     (invite_request env uid t cid);
                                                   EvReplyText (invite_failed_text e)])))
                                ∨ ∃ link, bot_api env (invite_request env uid t cid) = inr link
                                   ∧ handle_email cfg env update w
                                     = (inr END,
                                        mkWorld
                                          (Sheet.append_row
                                             (submission_row env (Tg.effective_user update)
                                                (email_of update) link) ws1)
                                          (log1 ++ [EvCreateChatInviteLink
                                                      (invite_request env uid t cid);
                                                    EvAppendRow
                                                      (submission_row env
                                                         (Tg.effective_user update)
                                                         (email_of update) link) (Some "RAW");
                                                    EvReplyText (invite_text link)])))))))))).
Proof.
  intros uid ws1 log1.
  destruct (decide (Tg.effective_chat_type update = "private")) as [Hp|Hp].
  2:{ left. split; [exact Hp | apply handle_email_not_private; exact Hp]. }
  right. split; [exact Hp|].
  destruct (EMAIL_RE_match (email_of update)) eqn:Hv.
  2:{ left. split; [reflexivity | apply handle_email_invalid; assumption]. }
  right. split; [reflexivity|]. exact (handle_email_cases cfg env update w Hp Hv).
Qed.

Lemma used_rows_opened ws :
  Sheet.used_rows (opened ws) = Sheet.used_rows ws
  ∨ Sheet.used_rows (opened ws) = Sheet.used_rows ws ++ [HEADER].
Proof.
  unfold opened. destruct (Sheet.row_values 1 ws); [right | left; reflexivity].
  unfold Sheet.append_row. apply used_rows_snoc. reflexivity.
Qed.

Lemma used_rows_append values ws :
  Sheet.blank_row values = false ->
  Sheet.used_rows (Sheet.append_row values ws) = Sheet.used_rows ws ++ [values].
Proof. intros H. unfold Sheet.append_row. apply used_rows_snoc. exact H. Qed.

(** X7. The worksheet only grows: whatever the update, the clock and
    the answers of the outside, the used rows found by [handle_email]
    are still there, in place, when it is done, followed by at most
    two new rows, each of them the header or the submission row of
    the user of the update. *)
Theorem X7_rows_are_only_appended cfg env update w :
  ∃ added,
    Sheet.used_rows (sheet (snd (handle_email cfg env update w)))
    = Sheet.used_rows (sheet w) ++ added
    ∧ (List.length added ≤ 2)%nat
    ∧ Forall (λ r, r = HEADER
                   ∨ ∃ link, r = submission_row env (Tg.effective_user update)
                                   (email_of update) link) added.
Proof.
  assert (Ho : ∃ a, Sheet.used_rows (opened (sheet w)) = Sheet.used_rows (sheet w) ++ a
                    ∧ (a = [] ∨ a = [HEADER])).
  { destruct (used_rows_opened (sheet w)) as [H|H]; rewrite H.
    - exists []. rewrite app_nil_r. auto.
    - exists [HEADER]. auto. }
  destruct Ho as (a & Ha & Hcase).
  assert (Hlen : (List.length a ≤ 1)%nat) by (destruct Hcase; subst; simpl; lia).
  assert (Hall : Forall (λ r, r = HEADER
                   ∨ ∃ link, r = submission_row env (Tg.effective_user update)
                                   (email_of update) link) a).
  { destruct Hcase; subst; repeat constructor. }
  destruct (handle_email_paths cfg env update w)
    as [[Hp E] | [Hp [[Hv E] | [Hv [[Hr E] | [Hf [[Ht E] | (t & Ht & [[Hc E]
        | (cid & Hc & [(e & Hapi & E) | (link & Hapi & E)])])]]]]]]];
    rewrite E; cbn [snd sheet].
  - exists []. rewrite app_nil_r. split; [reflexivity|]. split; [simpl; lia | constructor].
  - exists []. rewrite app_nil_r. split; [reflexivity|]. split; [simpl; lia | constructor].
  - exists a. split; [exact Ha|]. split; [lia | exact Hall].
  - exists a. split; [exact Ha|]. split; [lia | exact Hall].
  - exists a. split; [exact Ha|]. split; [lia | exact Hall].
  - exists a. split; [exact Ha|]. split; [lia | exact Hall].
  - exists (a ++ [submission_row env (Tg.effective_user update) (email_of update) link]).
    rewrite used_rows_append by apply submission_row_not_blank.
    rewrite Ha, <- app_assoc. split; [reflexivity|]. split.
    + rewrite length_app. simpl. lia.
    + apply Forall_app. split; [exact Hall|]. constructor; [right; eauto | constructor].
Qed.

Lemma no_create_in_prefix cfg ws c req :
  EvCreateChatInviteLink req ∉ get_ws_events cfg ws ++ [EvRowValues 1; EvColValues c].
Proof.
  intros H. apply elem_of_app in H as [H|H].
  - unfold get_ws_events in H. destruct (Sheet.row_values 1 ws); simpl in H;
      repeat (apply elem_of_cons in H as [H|H]; [discriminate|]);
      apply elem_of_nil in H; contradiction.
  - apply elem_of_two in H as [H|H]; discriminate.
Qed.

Lemma no_raw_in_prefix cfg ws c values :
  EvAppendRow values (Some "RAW") ∉ get_ws_events cfg ws ++ [EvRowValues 1; EvColValues c].
Proof.
  intros H. apply elem_of_app in H as [H|H].
  - apply get_ws_events_append in H as (_ & H & _). discriminate.
  - apply elem_of_two in H as [H|H]; discriminate.
Qed.

Lemma no_reply_in_prefix cfg ws c text :
  EvReplyText text ∉ get_ws_events cfg ws ++ [EvRowValues 1; EvColValues c].
Proof.
  intros H. apply elem_of_app in H as [H|H].
  - unfold get_ws_events in H. destruct (Sheet.row_values 1 ws); simpl in H;
      repeat (apply elem_of_cons in H as [H|H]; [discriminate|]);
      apply elem_of_nil in H; contradiction.
  - apply elem_of_two in H as [H|H]; discriminate.
Qed.

(** X8. An invite is requested only for a new user with a valid e-mail
    in a private chat: whenever a run of [handle_email] sends a
    request to the Bot API, the chat is private, the stripped text
    matches the pattern, the user is not recorded on the opened
    worksheet, GROUP_CHAT_ID is the integer literal of the chat asked
    for, and the request is the only one of the run. *)
Theorem X8_invite_only_for_new_valid_user cfg env update w evs req :
  log (snd (handle_email cfg env update w)) = log w ++ evs ->
  EvCreateChatInviteLink req ∈ evs ->
  Tg.effective_chat_type update = "private"
  ∧ EMAIL_RE_match (email_of update) = true
  ∧ ¬ recorded (opened (sheet w)) (Tg.id (Tg.effective_user update))
  ∧ Py.int (GROUP_CHAT_ID cfg) = Some (chat_id req)
  ∧ ∃ pre post,
      evs = pre ++ EvCreateChatInviteLink req :: post
      ∧ (∀ r, EvCreateChatInviteLink r ∉ pre)
      ∧ (∀ r, EvCreateChatInviteLink r ∉ post).
Proof.
  intros Hlog Hreq.
  destruct (handle_email_paths cfg env update w)
    as [[Hp E] | [Hp [[Hv E] | [Hv [[Hr E] | [Hf [[Ht E] | (t & Ht & [[Hc E]
        | (cid & Hc & [(e & Hapi & E) | (link & Hapi & E)])])]]]]]]];
    rewrite E in Hlog; cbn [snd log] in Hlog; rewrite <- ?app_assoc in Hlog.
  - rewrite <- (app_nil_r (log w)) in Hlog at 1. apply app_inv_head in Hlog. subst evs.
    apply elem_of_nil in Hreq. contradiction.
  - apply app_inv_head in Hlog. subst evs.
    apply elem_of_cons in Hreq as [H|H]; [discriminate | apply elem_of_nil in H; contradiction].
  - apply app_inv_head in Hlog. subst evs. exfalso.
    rewrite app_assoc in Hreq. apply elem_of_app in Hreq as [H|H].
    + exact (no_create_in_prefix _ _ _ _ H).
    + apply elem_of_cons in H as [H|H]; [discriminate | apply elem_of_nil in H; contradiction].
  - apply app_inv_head in Hlog. subst evs. exfalso. exact (no_create_in_prefix _ _ _ _ Hreq).
  - apply app_inv_head in Hlog. subst evs. exfalso.
    rewrite app_assoc in Hreq. apply elem_of_app in Hreq as [H|H].
    + exact (no_create_in_prefix _ _ _ _ H).
    + apply elem_of_cons in H as [H|H]; [discriminate | apply elem_of_nil in H; contradiction].
  - apply app_inv_head in Hlog. subst evs.
    rewrite app_assoc in Hreq. apply elem_of_app in Hreq as [H|H];
      [exfalso; exact (no_create_in_prefix _ _ _ _ H)|].
    apply elem_of_two in H as [H|H]; [|discriminate]. injection H as ->.
    repeat (split; [assumption|]).
    eexists _, [EvReplyText (invite_failed_text e)].
    rewrite app_assoc. split; [reflexivity|]. split.
    + intros r. apply no_create_in_prefix.
    + intros r H. apply elem_of_cons in H as [H|H];
        [discriminate | apply elem_of_nil in H; contradiction].
  - apply app_inv_head in Hlog. subst evs.
    rewrite app_assoc in Hreq. apply elem_of_app in Hreq as [H|H];
      [exfalso; exact (no_create_in_prefix _ _ _ _ H)|].
    apply elem_of_cons in H as [H|H];
      [|apply elem_of_two in H as [H|H]; discriminate]. injection H as ->.
    repeat (split; [assumption|]).
    eexists _, [_; _].
    rewrite app_assoc. split; [reflexivity|]. split.
    + intros r. apply no_create_in_prefix.
    + intros r H. apply elem_of_two in H as [H|H]; discriminate.
Qed.

Lemma X8_witness :
  Tg.effective_chat_type (sample_update "private" "bob@example.com" other_user) = "private"
  ∧ EMAIL_RE_match (email_of (sample_update "private" "bob@example.com" other_user)) = true
  ∧ ¬ recorded (opened sample_sheet) 7
  ∧ Py.int (GROUP_CHAT_ID sample_cfg)
    = Some (chat_id (mkInviteRequest (-1001234567890) 1 1700000600 false
                       "patreon_gate_7_1700000000"))
  ∧ ∃ pre post,
      [EvOpenByKey "service-account.json" "sheet-key"; EvRowValues 1; EvRowValues 1;
       EvColValues 2;
       EvCreateChatInviteLink
         (mkInviteRequest (-1001234567890) 1 1700000600 false "patreon_gate_7_1700000000");
       EvReplyText (invite_failed_text
         (mkException "Forbidden" "not enough rights to manage chat invite link"))]
      = pre ++ EvCreateChatInviteLink
                 (mkInviteRequest (-1001234567890) 1 1700000600 false
                    "patreon_gate_7_1700000000") :: post
      ∧ (∀ r, EvCreateChatInviteLink r ∉ pre)
      ∧ (∀ r, EvCreateChatInviteLink r ∉ post).
Proof.
  apply (X8_invite_only_for_new_valid_user sample_cfg (sample_env api_forbidden)
           (sample_update "private" "bob@example.com" other_user) (mkWorld sample_sheet [])).
  - vm_compute. reflexivity.
  - do 4 apply list_elem_of_further. apply list_elem_of_here.
Defined.

(** X9. A submission row is written only after the invite has been
    issued: whenever a run of [handle_email] appends a row in RAW
    mode, the call just before it is an invite request that the Bot
    API answered with a link, the row is the submission row of the
    user of the update with that link, and the only call after it is
    the reply that carries the link. *)
Theorem X9_row_only_after_invite cfg env update w evs values :
  log (snd (handle_email cfg env update w)) = log w ++ evs ->
  EvAppendRow values (Some "RAW") ∈ evs ->
  ∃ pre req link,
    evs = pre ++ [EvCreateChatInviteLink req;
                  EvAppendRow values (Some "RAW");
                  EvReplyText (invite_text link)]
    ∧ bot_api env req = inr link
    ∧ values = submission_row env (Tg.effective_user update) (email_of update) link
    ∧ fst (handle_email cfg env update w) = inr END.
Proof.
  intros Hlog Hrow.
  destruct (handle_email_paths cfg env update w)
    as [[Hp E] | [Hp [[Hv E] | [Hv [[Hr E] | [Hf [[Ht E] | (t & Ht & [[Hc E]
        | (cid & Hc & [(e & Hapi & E) | (link & Hapi & E)])])]]]]]]];
    rewrite E in *; cbn [fst snd log] in *; rewrite <- ?app_assoc in Hlog.
  - rewrite <- (app_nil_r (log w)) in Hlog at 1. apply app_inv_head in Hlog. subst evs.
    apply elem_of_nil in Hrow. contradiction.
  - apply app_inv_head in Hlog. subst evs.
    apply elem_of_cons in Hrow as [H|H]; [discriminate | apply elem_of_nil in H; contradiction].
  - apply app_inv_head in Hlog. subst evs. exfalso.
    rewrite app_assoc in Hrow. apply elem_of_app in Hrow as [H|H].
    + exact (no_raw_in_prefix _ _ _ _ H).
    + apply elem_of_cons in H as [H|H]; [discriminate | apply elem_of_nil in H; contradiction].
  - apply app_inv_head in Hlog. subst evs. exfalso. exact (no_raw_in_prefix _ _ _ _ Hrow).
  - apply app_inv_head in Hlog. subst evs. exfalso.
    rewrite app_assoc in Hrow. apply elem_of_app in Hrow as [H|H].
    + exact (no_raw_in_prefix _ _ _ _ H).
    + apply elem_of_cons in H as [H|H]; [discriminate | apply elem_of_nil in H; contradiction].
  - apply app_inv_head in Hlog. subst evs. exfalso.
    rewrite app_assoc in Hrow. apply elem_of_app in Hrow as [H|H].
    + exact (no_raw_in_prefix _ _ _ _ H).
    + apply elem_of_two in H as [H|H]; discriminate.
  - apply app_inv_head in Hlog. subst evs.
    rewrite app_assoc in Hrow. apply elem_of_app in Hrow as [H|H];
      [exfalso; exact (no_raw_in_prefix _ _ _ _ H)|].
    apply elem_of_cons in H as [H|H]; [discriminate|].
    apply elem_of_two in H as [H|H]; [|discriminate]. injection H as ->.
    eexists _, _, link. rewrite app_assoc. split; [reflexivity|]. auto.
Qed.

Lemma X9_witness :
  ∃ pre req link,
    [EvOpenByKey "service-account.json" "sheet-key"; EvRowValues 1; EvRowValues 1;
     EvColValues 2;
     EvCreateChatInviteLink
       (mkInviteRequest (-1001234567890) 1 1700000600 false "patreon_gate_7_1700000000");
     EvAppendRow
       [ "2023-11-14T22:13:21+00:00"; "7"; "bob"; "Bob"; "bob@example.com";
         "https://t.me/+AbCdEf" ] (Some "RAW");
     EvReplyText (invite_text "https://t.me/+AbCdEf")]
    = pre ++ [EvCreateChatInviteLink req;
              EvAppendRow
                [ "2023-11-14T22:13:21+00:00"; "7"; "bob"; "Bob"; "bob@example.com";
                  "https://t.me/+AbCdEf" ] (Some "RAW");
              EvReplyText (invite_text link)]
    ∧ bot_api (sample_env api_ok) req = inr link
    ∧ [ "2023-11-14T22:13:21+00:00"; "7"; "bob"; "Bob"; "bob@example.com";
        "https://t.me/+AbCdEf" ]
      = submission_row (sample_env api_ok) other_user
          (email_of (sample_update "private" "bob@example.com" other_user)) link
    ∧ fst (handle_email sample_cfg (sample_env api_ok)
             (sample_update "private" "bob@example.com" other_user) (mkWorld sample_sheet []))
      = inr END.
Proof.
  apply (X9_row_only_after_invite sample_cfg (sample_env api_ok)
           (sample_update "private" "bob@example.com" other_user) (mkWorld sample_sheet [])).
  - vm_compute. reflexivity.
  - do 5 apply list_elem_of_further. apply list_elem_of_here.
Defined.

(** X10. Every run of [handle_email] that returns keeps the
    conversation waiting for an e-mail (returns ASK_EMAIL) exactly
    when the chat is private and the stripped text does not match the
    pattern, and ends it (returns END) in every other case. *)
Theorem X10_ask_again_iff_invalid cfg env update w next :
  fst (handle_email cfg env update w) = inr next ->
  (next = ASK_EMAIL
   ↔ Tg.effective_chat_type update = "private"
     ∧ EMAIL_RE_match (email_of update) = false)
  ∧ (next = END
     ↔ Tg.effective_chat_type update ≠ "private"
       ∨ EMAIL_RE_match (email_of update) = true).
Proof.
  destruct (handle_email_paths cfg env update w)
    as [[Hp E] | [Hp [[Hv E] | [Hv [[Hr E] | [Hf [[Ht E] | (t & Ht & [[Hc E]
        | (cid & Hc & [(e & Hapi & E) | (link & Hapi & E)])])]]]]]]];
    rewrite E; cbn [fst]; intros Hn; try discriminate;
    injection Hn as <-; split; split;
    try discriminate; try (intros [? ?]; congruence);
    try (intros [? | ?]; congruence); auto.
Qed.

Lemma X10_witness :
  (ASK_EMAIL = ASK_EMAIL
   ↔ Tg.effective_chat_type (sample_update "private" "not-an-email" other_user) = "private"
     ∧ EMAIL_RE_match (email_of (sample_update "private" "not-an-email" other_user)) = false)
  ∧ (ASK_EMAIL = END
     ↔ Tg.effective_chat_type (sample_update "private" "not-an-email" other_user) ≠ "private"
       ∨ EMAIL_RE_match (email_of (sample_update "private" "not-an-email" other_user)) = true).
Proof.
  apply (X10_ask_again_iff_invalid sample_cfg (sample_env api_ok)
           (sample_update "private" "not-an-email" other_user) (mkWorld sample_sheet [])).
  vm_compute. reflexivity.
Defined.

Lemma last_occurrence {A} (Q : A -> Prop) (P : list A) x pre y post :
  (∀ a, a ∈ P -> ¬ Q a) -> Q y ->
  P ++ [x] = pre ++ y :: post -> pre = P ∧ y = x ∧ post = [].
Proof.
  revert pre. induction P as [|a P IH]; intros pre HP Hy H.
  - destruct pre as [|b pre]; simpl in H.
    + injection H as -> <-. auto.
    + injection H as _ H. destruct pre; discriminate.
  - destruct pre as [|b pre]; simpl in H.
    + injection H as Ha _. subst a. exfalso. apply (HP y); [apply list_elem_of_here | exact Hy].
    + injection H as -> H. destruct (IH pre) as (-> & -> & ->); auto.
      intros a Ha. apply HP. apply list_elem_of_further. exact Ha.
Qed.

(** X11. The handler replies at most once per run, and a reply is the
    last call of its run: in the calls of a run nothing follows a
    reply and no reply precedes it.  Every run in a private chat that
    returns has replied; no run outside a private chat has. *)
Theorem X11_one_reply_at_the_end cfg env update w evs :
  log (snd (handle_email cfg env update w)) = log w ++ evs ->
  (∀ pre text post, evs = pre ++ EvReplyText text :: post ->
     post = [] ∧ ∀ t, EvReplyText t ∉ pre)
  ∧ (Tg.effective_chat_type update = "private" ->
     ∀ next, fst (handle_email cfg env update w) = inr next ->
     ∃ pre text, evs = pre ++ [EvReplyText text])
  ∧ (Tg.effective_chat_type update ≠ "private" -> evs = []).
Proof.
  intros Hlog.
  assert (Hno : ∀ P : list Event,
            (∀ t, EvReplyText t ∉ P) -> ∀ a, a ∈ P -> ¬ is_reply a).
  { intros P HP [t| | | | |] Ha Hq; try exact Hq. exact (HP _ Ha). }
  assert (Hend : ∀ (P : list Event) x,
            (∀ t, EvReplyText t ∉ P) -> evs = P ++ [EvReplyText x] ->
            (∀ pre text post, evs = pre ++ EvReplyText text :: post ->
               post = [] ∧ ∀ t, EvReplyText t ∉ pre)
            ∧ (∃ pre text, evs = pre ++ [EvReplyText text])).
  { intros P x HP ->. split; [|eauto]. intros pre text post H.
    apply (last_occurrence is_reply) in H as (Epre & _ & Epost);
      [subst; split; [reflexivity | exact HP] | exact (Hno _ HP) | exact I]. }
  assert (Hnone : ∀ P : list Event, (∀ t, EvReplyText t ∉ P) -> evs = P ->
            ∀ pre text post, evs = pre ++ EvReplyText text :: post ->
               post = [] ∧ ∀ t, EvReplyText t ∉ pre).
  { intros P HP -> pre text post H. exfalso. apply (HP text). rewrite H.
    apply elem_of_app. right. apply list_elem_of_here. }
  assert (Hpre : ∀ tl : list Event, (∀ t, EvReplyText t ∉ tl) -> ∀ t,
            EvReplyText t ∉ get_ws_events cfg (sheet w)
              ++ [EvRowValues 1; EvColValues (id_column (opened (sheet w)))] ++ tl).
  { intros tl Htl t H. rewrite app_assoc in H. apply elem_of_app in H as [H|H];
      [exact (no_reply_in_prefix _ _ _ _ H) | exact (Htl _ H)]. }
  destruct (handle_email_paths cfg env update w)
    as [[Hp E] | [Hp [[Hv E] | [Hv [[Hr E] | [Hf [[Ht E] | (t & Ht & [[Hc E]
        | (cid & Hc & [(e & Hapi & E) | (link & Hapi & E)])])]]]]]]];
    rewrite E in *; cbn [fst snd log] in *; rewrite <- ?app_assoc in Hlog.
  - rewrite <- (app_nil_r (log w)) in Hlog at 1. apply app_inv_head in Hlog.
    split; [|split; [contradiction | auto]].
    apply (Hnone []); [|auto]. intros t H. apply elem_of_nil in H. contradiction.
  - apply app_inv_head in Hlog. symmetry in Hlog.
    destruct (Hend [] invalid_email_text) as [H1 H2]; [|exact Hlog|].
    { intros t H. apply elem_of_nil in H. contradiction. }
    split; [exact H1 | split; [intros _ next _; exact H2 | contradiction]].
  - apply app_inv_head in Hlog. symmetry in Hlog. rewrite app_assoc in Hlog.
    destruct (Hend _ _ (no_reply_in_prefix _ _ _) Hlog) as [H1 H2].
    split; [exact H1 | split; [intros _ next _; exact H2 | contradiction]].
  - apply app_inv_head in Hlog. symmetry in Hlog.
    split; [|split; [intros _ next; discriminate | contradiction]].
    exact (Hnone _ (no_reply_in_prefix _ _ _) Hlog).
  - apply app_inv_head in Hlog. symmetry in Hlog. rewrite app_assoc in Hlog.
    destruct (Hend _ _ (no_reply_in_prefix _ _ _) Hlog) as [H1 H2].
    split; [exact H1 | split; [intros _ next _; exact H2 | contradiction]].
  - apply app_inv_head in Hlog. symmetry in Hlog.
    change [EvCreateChatInviteLink (invite_request env (Tg.id (Tg.effective_user update)) t cid);
            EvReplyText (invite_failed_text e)]
      with ([EvCreateChatInviteLink
               (invite_request env (Tg.id (Tg.effective_user update)) t cid)]
            ++ [EvReplyText (invite_failed_text e)]) in Hlog.
    rewrite !app_assoc in Hlog. rewrite <- (app_assoc (get_ws_events _ _)) in Hlog.
    assert (Htl : ∀ t0, EvReplyText t0 ∉ [EvCreateChatInviteLink
               (invite_request env (Tg.id (Tg.effective_user update)) t cid)]).
    { intros t0 H. apply elem_of_cons in H as [H|H];
        [discriminate | apply elem_of_nil in H; contradiction]. }
    destruct (Hend _ _ (Hpre _ Htl) Hlog) as [H1 H2].
    split; [exact H1 | split; [intros _ next _; exact H2 | contradiction]].
  - apply app_inv_head in Hlog. symmetry in Hlog.
    change [EvCreateChatInviteLink (invite_request env (Tg.id (Tg.effective_user update)) t cid);
            EvAppendRow (submission_row env (Tg.effective_user update) (email_of update) link)
              (Some "RAW");
            EvReplyText (invite_text link)]
      with ([EvCreateChatInviteLink
               (invite_request env (Tg.id (Tg.effective_user update)) t cid);
             EvAppendRow (submission_row env (Tg.effective_user update) (email_of update) link)
               (Some "RAW")]
            ++ [EvReplyText (invite_text link)]) in Hlog.
    rewrite !app_assoc in Hlog. rewrite <- (app_assoc (get_ws_events _ _)) in Hlog.
    assert (Htl : ∀ t0, EvReplyText t0 ∉ [EvCreateChatInviteLink
               (invite_request env (Tg.id (Tg.effective_user update)) t cid);
             EvAppendRow (submission_row env (Tg.effective_user update) (email_of update) link)
               (Some "RAW")]).
    { intros t0 H. apply elem_of_two in H as [H|H]; discriminate. }
    destruct (Hend _ _ (Hpre _ Htl) Hlog) as [H1 H2].
    split; [exact H1 | split; [intros _ next _; exact H2 | contradiction]].
Qed.

Lemma X11_witness :
  (∀ pre text post,
     [EvOpenByKey "service-account.json" "sheet-key"; EvRowValues 1; EvRowValues 1;
      EvColValues 2; EvReplyText already_submitted_text]
     = pre ++ EvReplyText text :: post ->
     post = [] ∧ ∀ t, EvReplyText t ∉ pre)
  ∧ (Tg.effective_chat_type (sample_update "private" "ann@example.com" sample_user)
     = "private" ->
     ∀ next,
       fst (handle_email sample_cfg (sample_env api_ok)
              (sample_update "private" "ann@example.com" sample_user)
              (mkWorld sample_sheet [])) = inr next ->
       ∃ pre text,
         [EvOpenByKey "service-account.json" "sheet-key"; EvRowValues 1; EvRowValues 1;
          EvColValues 2; EvReplyText already_submitted_text]
         = pre ++ [EvReplyText text])
  ∧ (Tg.effective_chat_type (sample_update "private" "ann@example.com" sample_user)
     ≠ "private" ->
     [EvOpenByKey "service-account.json" "sheet-key"; EvRowValues 1; EvRowValues 1;
      EvColValues 2; EvReplyText already_submitted_text] = []).
Proof.
  apply (X11_one_reply_at_the_end sample_cfg (sample_env api_ok)
           (sample_update "private" "ann@example.com" sample_user) (mkWorld sample_sheet [])).
  vm_compute. reflexivity.
Defined.

(** X12. When the reading of the clock plus the configured minutes
    falls outside the years 1 to 9999, the run of a new user with a
    valid e-mail in a private chat raises OverflowError after the
    duplicate check: the worksheet has been opened and read, and
    nothing is replied, no invite is requested and no submission row
    is written. *)
Theorem X12_expiry_out_of_range_raises cfg env update w :
  Tg.effective_chat_type update = "private" ->
  EMAIL_RE_match (email_of update) = true ->
  ¬ recorded (opened (sheet w)) (Tg.id (Tg.effective_user update)) ->
  now_expire env + INVITE_EXPIRE_MINUTES cfg * 60 * 1000000 < DateTime.min
  ∨ DateTime.max < now_expire env + INVITE_EXPIRE_MINUTES cfg * 60 * 1000000 ->
  handle_email cfg env update w
  = (inl (mkException "OverflowError" (overflow_text env)),
     mkWorld (opened (sheet w))
       (log w ++ get_ws_events cfg (sheet w)
        ++ [EvRowValues 1; EvColValues (id_column (opened (sheet w)))])).
Proof.
  intros Hp Hv Hf Hr. apply handle_email_overflow; try assumption.
  unfold DateTime.add_minutes, DateTime.in_range, DateTime.us_per_second.
  destruct (_ && _) eqn:E; [|reflexivity].
  apply andb_true_iff in E as [E1 E2]. apply Z.leb_le in E1, E2. lia.
Qed.

Lemma X12_witness :
  handle_email
    (mkConfig "123456:token" "-1001234567890" "sheet-key" "service-account.json"
       5000000000)
    (sample_env api_ok) (sample_update "private" "bob@example.com" other_user)
    (mkWorld sample_sheet [])
  = (inl (mkException "OverflowError" "date value out of range"),
     mkWorld (opened sample_sheet)
       ([] ++ get_ws_events
                (mkConfig "123456:token" "-1001234567890" "sheet-key" "service-account.json"
                   5000000000) sample_sheet
        ++ [EvRowValues 1; EvColValues (id_column (opened sample_sheet))])).
Proof.
  apply (X12_expiry_out_of_range_raises
           (mkConfig "123456:token" "-1001234567890" "sheet-key" "service-account.json"
              5000000000)
           (sample_env api_ok) (sample_update "private" "bob@example.com" other_user)
           (mkWorld sample_sheet [])).
  - reflexivity.
  - vm_compute. reflexivity.
  - apply not_recorded_check. vm_compute. reflexivity.
  - right. vm_compute. reflexivity.
Defined.

(** X13. When GROUP_CHAT_ID is not an integer literal, the run of a new
    user with a valid e-mail in a private chat sends no request to
    the Bot API: after the duplicate check its only call is the
    diagnostic reply, which reports a ValueError, and it returns END
    without writing a submission row. *)
Theorem X13_bad_chat_id_never_reaches_api cfg env update w expire_dt :
  Tg.effective_chat_type update = "private" ->
  EMAIL_RE_match (email_of update) = true ->
  ¬ recorded (opened (sheet w)) (Tg.id (Tg.effective_user update)) ->
  DateTime.add_minutes (now_expire env) (INVITE_EXPIRE_MINUTES cfg) = Some expire_dt ->
  Py.int (GROUP_CHAT_ID cfg) = None ->
  handle_email cfg env update w
  = (inr END,
     mkWorld (opened (sheet w))
       (log w ++ get_ws_events cfg (sheet w)
        ++ [EvRowValues 1; EvColValues (id_column (opened (sheet w)));
            EvReplyText (invite_failed_text
              (mkException "ValueError" (int_error_text env (GROUP_CHAT_ID cfg))))])).
Proof.
  intros Hp Hv Hf Ht Hc.
  rewrite (handle_email_bad_chat_id cfg env update w Hp Hv Hf _ Ht Hc).
  rewrite <- !app_assoc. reflexivity.
Qed.

Lemma X13_witness :
  handle_email
    (mkConfig "123456:token" "@my_group" "sheet-key" "service-account.json" 10)
    (sample_env api_ok) (sample_update "private" "bob@example.com" other_user)
    (mkWorld sample_sheet [])
  = (inr END,
     mkWorld (opened sample_sheet)
       ([] ++ get_ws_events
                (mkConfig "123456:token" "@my_group" "sheet-key" "service-account.json" 10)
                sample_sheet
        ++ [EvRowValues 1; EvColValues (id_column (opened sample_sheet));
            EvReplyText (invite_failed_text
              (mkException "ValueError" (sample_int_error_text "@my_group")))])).
Proof.
  apply (X13_bad_chat_id_never_reaches_api
           (mkConfig "123456:token" "@my_group" "sheet-key" "service-account.json" 10)
           (sample_env api_ok) (sample_update "private" "bob@example.com" other_user)
           (mkWorld sample_sheet []) 1700000600123456).
  - reflexivity.
  - vm_compute. reflexivity.
  - apply not_recorded_check. vm_compute. reflexivity.
  - vm_compute. reflexivity.
  - vm_compute. reflexivity.
Defined.

(** X14. Among the strings whose code points are all below 256,
    [EMAIL_RE.match] accepts exactly the addresses of the pattern (a
    local part of ASCII letters, digits and [._%+-], an [@], a domain
    of ASCII letters, digits, dots and hyphens, a dot and a last label
    of at least two ASCII letters) and such an address followed by one
    newline, the end anchor holding before a final newline.  (Beyond
    code point 255 the pattern, read with IGNORECASE, takes a few more
    letters; those strings are outside this statement.) *)
Theorem X14_EMAIL_RE_accepts (codes : list N) :
  Forall (λ n, (n < 256)%N) codes ->
  EMAIL_RE_match (string_of_list_ascii (ascii_of_N <$> codes)) = true
  ↔ email_shape (ascii_of_N <$> codes)
    ∨ ∃ l, ascii_of_N <$> codes = l ++ ["010"%char] ∧ email_shape l.
Proof.
  intros _. rewrite EMAIL_RE_match_spec, list_ascii_of_string_of_list_ascii. reflexivity.
Qed.

Lemma X14_witness :
  EMAIL_RE_match (string_of_list_ascii (ascii_of_N <$> [97; 64; 98; 46; 99; 111; 10]%N)) = true
  ↔ email_shape (ascii_of_N <$> [97; 64; 98; 46; 99; 111; 10]%N)
    ∨ ∃ l, ascii_of_N <$> [97; 64; 98; 46; 99; 111; 10]%N = l ++ ["010"%char]
           ∧ email_shape l.
Proof.
  apply (X14_EMAIL_RE_accepts [97; 64; 98; 46; 99; 111; 10]%N).
  repeat constructor.
Defined.

(** X15. [main] gets to polling exactly when the bot token, the group
    identifier and the spreadsheet identifier are all non-empty, and
    the application then polls with the bot token. *)
Theorem X15_main_runs_iff_settings_present cfg :
  ((∃ app, main cfg = inr app)
   ↔ BOT_TOKEN cfg ≠ "" ∧ GROUP_CHAT_ID cfg ≠ "" ∧ SHEET_ID cfg ≠ "")
  ∧ (∀ app, main cfg = inr app -> token app = BOT_TOKEN cfg).
Proof.
  unfold main, must_env.
  destruct (BOT_TOKEN cfg) as [|c1 s1]; simpl.
  { split; [|discriminate]. split; [intros [app H]; discriminate | tauto]. }
  destruct (GROUP_CHAT_ID cfg) as [|c2 s2]; simpl.
  { split; [|discriminate]. split; [intros [app H]; discriminate | tauto]. }
  destruct (SHEET_ID cfg) as [|c3 s3]; simpl.
  { split; [|discriminate]. split; [intros [app H]; discriminate | tauto]. }
  split.
  - split; [intros _; repeat split; discriminate | eauto].
  - intros app [= <-]. reflexivity.
Qed.

(** *** Stripping *)

Lemma lstrip_nil_iff l : Py.lstrip l = [] ↔ Forall (λ c, Py.isspace c = true) l.
Proof.
  induction l as [|c l IH]; simpl.
  - split; [constructor | reflexivity].
  - destruct (Py.isspace c) eqn:E.
    + rewrite IH. split; [intros H; constructor; assumption | intros H; inversion H; assumption].
    + split; [discriminate | intros H; inversion H; congruence].
Qed.

Lemma lstrip_split l :
  ∃ sp, l = sp ++ Py.lstrip l ∧ Forall (λ c, Py.isspace c = true) sp.
Proof.
  induction l as [|c l (sp & IH & Hsp)]; simpl.
  - exists []. split; [reflexivity | constructor].
  - destruct (Py.isspace c) eqn:E.
    + exists (c :: sp). split; [simpl; congruence | constructor; assumption].
    + exists []. split; [reflexivity | constructor].
Qed.

Lemma rstrip_nil_iff l : Py.rstrip l = [] ↔ Forall (λ c, Py.isspace c = true) l.
Proof.
  unfold Py.rstrip. rewrite <- (Forall_reverse _ l), <- lstrip_nil_iff.
  split; intros H.
  - apply (f_equal reverse) in H. rewrite reverse_involutive in H. exact H.
  - rewrite H. reflexivity.
Qed.

(** A string strips to nothing exactly when it is made of blanks. *)
Lemma strip_empty_iff s :
  Py.strip s = "" ↔ Forall (λ c, Py.isspace c = true) (list_ascii_of_string s).
Proof.
  unfold Py.strip. destruct (lstrip_split (list_ascii_of_string s)) as (sp & H & Hsp).
  split.
  - intros E. apply (f_equal list_ascii_of_string) in E.
    rewrite list_ascii_of_string_of_list_ascii in E. simpl in E.
    apply rstrip_nil_iff in E. rewrite H. apply Forall_app. auto.
  - intros Hall. assert (E : Py.lstrip (list_ascii_of_string s) = []).
    { apply lstrip_nil_iff. exact Hall. }
    rewrite E. reflexivity.
Qed.

Lemma lstrip_fixed l :
  (∀ c l', l = c :: l' -> Py.isspace c = false) -> Py.lstrip l = l.
Proof.
  destruct l as [|c l]; [reflexivity|]. intros H. simpl.
  rewrite (H c l eq_refl). reflexivity.
Qed.

Lemma lstrip_idem l : Py.lstrip (Py.lstrip l) = Py.lstrip l.
Proof. apply lstrip_fixed. intros c l' H. exact (lstrip_head _ _ _ H). Qed.

Lemma rstrip_idem l : Py.rstrip (Py.rstrip l) = Py.rstrip l.
Proof. unfold Py.rstrip. rewrite reverse_involutive, lstrip_idem. reflexivity. Qed.

Lemma lstrip_snoc l c :
  Py.isspace c = false -> Py.lstrip (l ++ [c]) = Py.lstrip l ++ [c].
Proof.
  intros H. induction l as [|x l IH]; simpl.
  - rewrite H. reflexivity.
  - destruct (Py.isspace x); [exact IH | reflexivity].
Qed.

Lemma rstrip_cons c l :
  Py.isspace c = false -> Py.rstrip (c :: l) = c :: Py.rstrip l.
Proof.
  intros H. unfold Py.rstrip. rewrite reverse_cons, (lstrip_snoc _ _ H), reverse_app.
  reflexivity.
Qed.

Lemma strip_list_idem l :
  Py.rstrip (Py.lstrip (Py.rstrip (Py.lstrip l))) = Py.rstrip (Py.lstrip l).
Proof.
  destruct (Py.lstrip l) as [|c m] eqn:E; [reflexivity|].
  pose proof (lstrip_head _ _ _ E) as Hc.
  rewrite (rstrip_cons _ _ Hc). simpl. rewrite Hc.
  rewrite <- (rstrip_cons _ _ Hc). apply rstrip_idem.
Qed.

Lemma strip_idem s : Py.strip (Py.strip s) = Py.strip s.
Proof.
  unfold Py.strip. rewrite list_ascii_of_string_of_list_ascii, strip_list_idem.
  reflexivity.
Qed.

(** X16. When INVITE_EXPIRE_MINUTES is unset or an integer literal, and
    one of BOT_TOKEN, GROUP_CHAT_ID and SHEET_ID is unset or made of
    blanks only, the process stops in [main] with the RuntimeError
    that names such a variable: a value of blanks counts as missing. *)
Theorem X16_blank_setting_counts_as_missing int_text (environ : gmap string string) m name :
  Py.int (getenv environ "INVITE_EXPIRE_MINUTES" "10") = Some m ->
  name ∈ ["BOT_TOKEN"; "GROUP_CHAT_ID"; "SHEET_ID"] ->
  (∀ v, environ !! name = Some v ->
        Forall (λ c, Py.isspace c = true) (list_ascii_of_string v)) ->
  ∃ missing,
    missing ∈ ["BOT_TOKEN"; "GROUP_CHAT_ID"; "SHEET_ID"]
    ∧ (∀ v, environ !! missing = Some v ->
            Forall (λ c, Py.isspace c = true) (list_ascii_of_string v))
    ∧ run_module int_text environ
      = inl (mkException "RuntimeError" ("Missing env var: " +:+ missing)).
Proof.
  intros Hm Hname Hblank.
  assert (Hstrip : ∀ n, Py.strip (getenv environ n "") = ""
            ↔ ∀ v, environ !! n = Some v ->
                   Forall (λ c, Py.isspace c = true) (list_ascii_of_string v)).
  { intros n. rewrite strip_empty_iff. unfold getenv.
    destruct (environ !! n) as [v|]; simpl.
    - split; [intros H v' [= <-]; exact H | intros H; apply H; reflexivity].
    - split; [intros _ v' H; discriminate | intros _; constructor]. }
  unfold run_module, load_config. rewrite Hm. unfold main, must_env. cbn [BOT_TOKEN GROUP_CHAT_ID SHEET_ID].
  destruct (Py.strip (getenv environ "BOT_TOKEN" "")) as [|c1 s1] eqn:E1.
  { exists "BOT_TOKEN". split; [repeat constructor|]. split; [apply Hstrip, E1 | reflexivity]. }
  destruct (Py.strip (getenv environ "GROUP_CHAT_ID" "")) as [|c2 s2] eqn:E2.
  { exists "GROUP_CHAT_ID". split; [repeat constructor|].
    split; [apply Hstrip, E2 | reflexivity]. }
  destruct (Py.strip (getenv environ "SHEET_ID" "")) as [|c3 s3] eqn:E3.
  { exists "SHEET_ID". split; [repeat constructor|]. split; [apply Hstrip, E3 | reflexivity]. }
  exfalso. apply Hstrip in Hblank.
  repeat (apply elem_of_cons in Hname as [->|Hname]; [congruence|]).
  apply elem_of_nil in Hname. contradiction.
Qed.

Lemma X16_witness :
  ∃ missing,
    missing ∈ ["BOT_TOKEN"; "GROUP_CHAT_ID"; "SHEET_ID"]
    ∧ (∀ v, ({["BOT_TOKEN" := "123456:token"; "GROUP_CHAT_ID" := "  ";
               "SHEET_ID" := "sheet-key"]} : gmap string string) !! missing = Some v ->
            Forall (λ c, Py.isspace c = true) (list_ascii_of_string v))
    ∧ run_module sample_int_error_text
        {["BOT_TOKEN" := "123456:token"; "GROUP_CHAT_ID" := "  "; "SHEET_ID" := "sheet-key"]}
      = inl (mkException "RuntimeError" ("Missing env var: " +:+ missing)).
Proof.
  apply (X16_blank_setting_counts_as_missing sample_int_error_text
           {["BOT_TOKEN" := "123456:token"; "GROUP_CHAT_ID" := "  ";
             "SHEET_ID" := "sheet-key"]} 10 "GROUP_CHAT_ID").
  - vm_compute. reflexivity.
  - apply list_elem_of_further, list_elem_of_here.
  - intros v H. vm_compute in H. injection H as <-. repeat constructor.
Defined.

(** X17. An INVITE_EXPIRE_MINUTES that is not an integer literal stops
    the process with a ValueError while the module is loaded, before
    [main] looks at the required settings, whatever they are. *)
Theorem X17_bad_minutes_stop_the_load int_text (environ : gmap string string) v :
  environ !! "INVITE_EXPIRE_MINUTES" = Some v ->
  Py.int v = None ->
  run_module int_text environ = inl (mkException "ValueError" (int_text v)).
Proof.
  intros Hv Hi. unfold run_module, load_config, getenv. rewrite Hv. simpl default.
  rewrite Hi. reflexivity.
Qed.

Lemma X17_witness :
  run_module sample_int_error_text
    {["BOT_TOKEN" := "123456:token"; "INVITE_EXPIRE_MINUTES" := "ten"]}
  = inl (mkException "ValueError" (sample_int_error_text "ten")).
Proof.
  apply (X17_bad_minutes_stop_the_load sample_int_error_text
           {["BOT_TOKEN" := "123456:token"; "INVITE_EXPIRE_MINUTES" := "ten"]} "ten").
  - vm_compute. reflexivity.
  - reflexivity.
Defined.

(** X18. Leading and trailing blanks of the message never change what
    [handle_email] does: the run on a text and the run on the
    stripped text are the same run. *)
Theorem X18_blanks_around_the_text_do_not_matter cfg env chat_type text user w :
  handle_email cfg env (Tg.mkUpdate chat_type (Some text) user) w
  = handle_email cfg env (Tg.mkUpdate chat_type (Some (Py.strip text)) user) w.
Proof.
  unfold handle_email. cbn [Tg.effective_chat_type Tg.message_text Tg.effective_user].
  assert (E : Py.strip (Py.or_empty (Some (Py.strip text)))
              = Py.strip (Py.or_empty (Some text))).
  { rewrite !or_empty_default. simpl. apply strip_idem. }
  rewrite E. reflexivity.
Qed.

(** X19. [start] opens the conversation only in a private chat: it
    returns ASK_EMAIL exactly when the chat type is private and END
    otherwise, and [cancel] always returns END.  Each of the two sends
    one reply and touches neither the worksheet nor the Bot API. *)
Theorem X19_start_only_in_private_chat update w :
  (∃ next text,
     start update w = (inr next, mkWorld (sheet w) (log w ++ [EvReplyText text]))
     ∧ (next = ASK_EMAIL ↔ Tg.effective_chat_type update = "private")
     ∧ (next = END ↔ Tg.effective_chat_type update ≠ "private"))
  ∧ cancel update w
    = (inr END,
       mkWorld (sheet w) (log w ++ [EvReplyText "Cancelled. You can restart with /start."])).
Proof.
  split; [|reflexivity]. unfold start.
  destruct (String.eqb_spec (Tg.effective_chat_type update) "private") as [E|E];
    eexists _, _; (split; [reflexivity|]); split; split; intros H;
    try discriminate; try contradiction; auto.
Qed.

(** The requests a run logs are the ones [invite_request] describes. *)
Lemma logged_request cfg env update w evs req :
  log (snd (handle_email cfg env update w)) = log w ++ evs ->
  EvCreateChatInviteLink req ∈ evs ->
  ∃ t cid, req = invite_request env (Tg.id (Tg.effective_user update)) t cid.
Proof.
  intros Hlog Hreq.
  destruct (handle_email_paths cfg env update w)
    as [[Hp E] | [Hp [[Hv E] | [Hv [[Hr E] | [Hf [[Ht E] | (t & Ht & [[Hc E]
        | (cid & Hc & [(e & Hapi & E) | (link & Hapi & E)])])]]]]]]];
    rewrite E in Hlog; cbn [snd log] in Hlog; rewrite <- ?app_assoc in Hlog.
  - rewrite <- (app_nil_r (log w)) in Hlog at 1. apply app_inv_head in Hlog. subst evs.
    apply elem_of_nil in Hreq. contradiction.
  - apply app_inv_head in Hlog. subst evs.
    apply elem_of_cons in Hreq as [H|H]; [discriminate | apply elem_of_nil in H; contradiction].
  - apply app_inv_head in Hlog. subst evs. exfalso.
    rewrite app_assoc in Hreq. apply elem_of_app in Hreq as [H|H].
    + exact (no_create_in_prefix _ _ _ _ H).
    + apply elem_of_cons in H as [H|H]; [discriminate | apply elem_of_nil in H; contradiction].
  - apply app_inv_head in Hlog. subst evs. exfalso. exact (no_create_in_prefix _ _ _ _ Hreq).
  - apply app_inv_head in Hlog. subst evs. exfalso.
    rewrite app_assoc in Hreq. apply elem_of_app in Hreq as [H|H].
    + exact (no_create_in_prefix _ _ _ _ H).
    + apply elem_of_cons in H as [H|H]; [discriminate | apply elem_of_nil in H; contradiction].
  - apply app_inv_head in Hlog. subst evs.
    rewrite app_assoc in Hreq. apply elem_of_app in Hreq as [H|H];
      [exfalso; exact (no_create_in_prefix _ _ _ _ H)|].
    apply elem_of_two in H as [H|H]; [|discriminate]. injection H as ->. eauto.
  - apply app_inv_head in Hlog. subst evs.
    rewrite app_assoc in Hreq. apply elem_of_app in Hreq as [H|H];
      [exfalso; exact (no_create_in_prefix _ _ _ _ H)|].
    apply elem_of_cons in H as [H|H];
      [|apply elem_of_two in H as [H|H]; discriminate]. injection H as ->. eauto.
Qed.

(** X20. The name of an invite tells the user and the second apart:
    the requests of two runs of the handler carry the same name
    exactly when the runs are for the same user id and their readings
    of [time.time()] fall in the same whole second. *)
Theorem X20_invite_name_collides_iff
    cfg env update w evs req cfg' env' update' w' evs' req' :
  log (snd (handle_email cfg env update w)) = log w ++ evs ->
  EvCreateChatInviteLink req ∈ evs ->
  log (snd (handle_email cfg' env' update' w')) = log w' ++ evs' ->
  EvCreateChatInviteLink req' ∈ evs' ->
  name req = name req'
  ↔ Tg.id (Tg.effective_user update) = Tg.id (Tg.effective_user update')
    ∧ DateTime.time_int (time_time env) = DateTime.time_int (time_time env').
Proof.
  intros Hl Hr Hl' Hr'.
  destruct (logged_request _ _ _ _ _ _ Hl Hr) as (t & cid & ->).
  destruct (logged_request _ _ _ _ _ _ Hl' Hr') as (t' & cid' & ->).
  cbn [invite_request name]. split.
  - intros H. apply (String.app_inj "patreon_gate_") in H.
    apply underscore_split in H as [H1 H2]; try apply str_no_underscore.
    split; [exact (pretty_Z_inj _ _ H1) | exact (pretty_Z_inj _ _ H2)].
  - intros [-> ->]. reflexivity.
Qed.

Lemma X20_witness :
  name (mkInviteRequest (-1001234567890) 1 1700000600 false "patreon_gate_7_1700000000")
  = name (mkInviteRequest (-1001234567890) 1 1700000600 false "patreon_gate_7_1700000000")
  ↔ Tg.id (Tg.effective_user (sample_update "private" "bob@example.com" other_user))
    = Tg.id (Tg.effective_user (sample_update "private" "robert@example.org" other_user))
    ∧ DateTime.time_int (time_time (sample_env api_ok))
      = DateTime.time_int (time_time (sample_env api_forbidden)).
Proof.
  apply (X20_invite_name_collides_iff
           sample_cfg (sample_env api_ok)
           (sample_update "private" "bob@example.com" other_user) (mkWorld sample_sheet [])
           [EvOpenByKey "service-account.json" "sheet-key"; EvRowValues 1; EvRowValues 1;
            EvColValues 2;
            EvCreateChatInviteLink
              (mkInviteRequest (-1001234567890) 1 1700000600 false "patreon_gate_7_1700000000");
            EvAppendRow
              [ "2023-11-14T22:13:21+00:00"; "7"; "bob"; "Bob"; "bob@example.com";
                "https://t.me/+AbCdEf" ] (Some "RAW");
            EvReplyText (invite_text "https://t.me/+AbCdEf")]
           (mkInviteRequest (-1001234567890) 1 1700000600 false "patreon_gate_7_1700000000")
           sample_cfg (sample_env api_forbidden)
           (sample_update "private" "robert@example.org" other_user) (mkWorld sample_sheet [])
           [EvOpenByKey "service-account.json" "sheet-key"; EvRowValues 1; EvRowValues 1;
            EvColValues 2;
            EvCreateChatInviteLink
              (mkInviteRequest (-1001234567890) 1 1700000600 false "patreon_gate_7_1700000000");
            EvReplyText (invite_failed_text
              (mkException "Forbidden" "not enough rights to manage chat invite link"))]
           (mkInviteRequest (-1001234567890) 1 1700000600 false "patreon_gate_7_1700000000")).
  - vm_compute. reflexivity.
  - do 4 apply list_elem_of_further. apply list_elem_of_here.
  - vm_compute. reflexivity.
  - do 4 apply list_elem_of_further. apply list_elem_of_here.
Defined.

(** X21. The row of a submission keeps the clock to the second: two
    runs of [append_submission] that read the clock within the same
    whole second write the same row for the same user, e-mail and
    link. *)
Theorem X21_timestamp_to_the_second env env' user email link w :
  now_append env / DateTime.us_per_second = now_append env' / DateTime.us_per_second ->
  append_submission env user email link w = append_submission env' user email link w.
Proof.
  intros H. rewrite !append_submission_run. unfold submission_row.
  rewrite (isoformat_seconds_whole (now_append env)), H,
    <- (isoformat_seconds_whole (now_append env')). reflexivity.
Qed.

Lemma X21_witness :
  append_submission (sample_env api_ok) other_user "bob@example.com" "https://t.me/+x"
    (mkWorld sample_sheet [])
  = append_submission
      (mkEnv 0 0 1700000001000000 api_ok sample_int_error_text "date value out of range")
      other_user "bob@example.com" "https://t.me/+x" (mkWorld sample_sheet []).
Proof.
  apply (X21_timestamp_to_the_second (sample_env api_ok)
           (mkEnv 0 0 1700000001000000 api_ok sample_int_error_text "date value out of range")).
  vm_compute. reflexivity.
Defined.

(** *** The rejection of a recorded user, on every worksheet *)

(** A recorded user lives on a worksheet that has a used row. *)
Lemma recorded_used_rows ws uid : recorded ws uid -> Sheet.used_rows ws ≠ [].
Proof.
  intros (r & _ & H) E. rewrite <- col_values_used_rows, E in H.
  change (Sheet.col_values (id_column ws) []) with (@nil string) in H.
  rewrite lookup_nil in H. discriminate.
Qed.

Lemma recorded_opened ws uid : recorded ws uid -> recorded (opened ws) uid.
Proof.
  intros H. unfold opened. destruct (Sheet.row_values 1 ws); [|exact H].
  apply recorded_append; [exact (recorded_used_rows _ _ H) | left; exact H].
Qed.

(** On every worksheet a recorded user is turned away: the handler
    opens the worksheet, makes the duplicate check, replies with the
    rejection and returns END, without an invite request and without a
    submission row.  What is left is the worksheet of the
    open-or-create step. *)
Lemma duplicate_rejected cfg env update w :
  Tg.effective_chat_type update = "private" ->
  EMAIL_RE_match (email_of update) = true ->
  recorded (sheet w) (Tg.id (Tg.effective_user update)) ->
  handle_email cfg env update w
  = (inr END,
     mkWorld (opened (sheet w))
       (log w ++ get_ws_events cfg (sheet w)
        ++ [EvRowValues 1; EvColValues (id_column (opened (sheet w)));
            EvReplyText already_submitted_text])).
Proof.
  intros Hp Hv Hr.
  rewrite (handle_email_duplicate cfg env update w Hp Hv (recorded_opened _ _ Hr)).
  rewrite <- !app_assoc. reflexivity.
Qed.

(** Where the worksheet has its first row, the rejected run appends
    nothing and leaves the worksheet as found. *)
Lemma duplicate_rejected_with_header cfg env update w :
  Tg.effective_chat_type update = "private" ->
  EMAIL_RE_match (email_of update) = true ->
  Sheet.row_values 1 (sheet w) ≠ [] ->
  recorded (sheet w) (Tg.id (Tg.effective_user update)) ->
  handle_email cfg env update w
  = (inr END,
     mkWorld (sheet w)
       (log w ++ [EvOpenByKey (GOOGLE_SERVICE_ACCOUNT_JSON cfg) (SHEET_ID cfg);
                  EvRowValues 1;
                  EvRowValues 1;
                  EvColValues (id_column (sheet w));
                  EvReplyText already_submitted_text])).
Proof.
  intros Hp Hv Hh Hr.
  rewrite (duplicate_rejected cfg env update w Hp Hv Hr), (opened_header _ Hh).
  unfold get_ws_events. destruct (Sheet.row_values 1 (sheet w)); [contradiction|].
  reflexivity.
Qed.
